(** * Weather-and-time agent

    A shallow embedding of [multi_tool_agent/agent.py] (the two tool
    functions [get_weather] and [get_current_time]) and of
    [multi_tool_agent/cli.py] (the command-line entry point [main]),
    together with the tool registry and dispatcher that [cli.py] imports.

    Layout:
    - [Text]  : substring search on strings;
    - [Py]    : the Python values the tools handle (parsed JSON, binary64
                floats, exceptions) and the built-in operations applied to
                them (subscripting, truthiness, arithmetic, [format]);
    - [Agent] : [agent.py], as computations over an environment, an HTTP
                oracle and a log of the requests sent;
    - [Core]  : [Tool], the registry and the dispatcher;
    - [Cli]   : [main] of [cli.py] and its interactive loop. *)

From Stdlib Require Import ZArith String Ascii List SpecFloat.
From stdpp Require Import base option list strings gmap pretty.

Open Scope string_scope.
Open Scope Z_scope.

(* ===================================================================== *)
(** ** Substring search *)
(* ===================================================================== *)

Module Text.

(** [contains sub s]: Python's [sub in s]. *)
Definition contains (sub s : string) : Prop :=
  exists pre post, s = pre +:+ sub +:+ post.

Fixpoint starts_with (p s : string) : bool :=
  match p, s with
  | EmptyString, _ => true
  | String a p', String b s' => if Ascii.eqb a b then starts_with p' s' else false
  | String _ _, EmptyString => false
  end.

Fixpoint containsb (sub s : string) : bool :=
  starts_with sub s ||
  match s with
  | EmptyString => false
  | String _ s' => containsb sub s'
  end.

End Text.

(* ===================================================================== *)
(** ** Python values and built-in operations *)
(* ===================================================================== *)

Module Py.

(** Exception classes that occur in the two source files, the ones the
    interpreter raises on the operations they use, and the two that the
    registry raises. *)
Inductive exn_class :=
  | RequestException | HTTPError | ConnectionError | Timeout | JSONDecodeError
  | KeyError | IndexError | TypeError | ValueError | AttributeError
  | OverflowError | ZeroDivisionError | EOFError | OSError
  | ToolNotFound | DuplicateTool
  | KeyboardInterrupt | SystemExit.

(** An exception object: its class and [str(e)]. *)
Record exn := Exn { exn_cls : exn_class; exn_str : string }.

(** [isinstance(e, requests.exceptions.RequestException)]. *)
Definition is_RequestException (c : exn_class) : bool :=
  match c with
  | RequestException | HTTPError | ConnectionError | Timeout | JSONDecodeError => true
  | _ => false
  end.

(** [isinstance(e, Exception)]: every class above except the two that
    derive from [BaseException] directly. *)
Definition is_Exception (c : exn_class) : bool :=
  match c with
  | KeyboardInterrupt | SystemExit => false
  | _ => true
  end.

(** The outcome of evaluating an expression or a call. *)
Inductive result (A : Type) :=
  | Ok (a : A)
  | Raise (e : exn).
Arguments Ok {A} a.
Arguments Raise {A} e.

Definition rbind {A B} (r : result A) (k : A -> result B) : result B :=
  match r with
  | Ok a => k a
  | Raise e => Raise e
  end.

(** A Python object as [response.json()] produces it. A [dict] keeps its
    insertion order, so it is a list of bindings; its keys are distinct,
    and a lookup reads the first binding of a key. *)
#[local] Set Warnings "-register-all".
Inductive pyval :=
  | PNone
  | PBool (b : bool)
  | PInt (z : Z)
  | PFloat (f : spec_float)
  | PStr (s : string)
  | PList (l : list pyval)
  | PDict (d : list (string * pyval)).

Definition type_name (v : pyval) : string :=
  match v with
  | PNone => "NoneType"
  | PBool _ => "bool"
  | PInt _ => "int"
  | PFloat _ => "float"
  | PStr _ => "str"
  | PList _ => "list"
  | PDict _ => "dict"
  end.

(** *** binary64 arithmetic *)

Definition prec : Z := 53.
Definition emax : Z := 1024.

(** The float nearest to an integer (ties to even); an infinity when the
    integer is out of range. *)
Definition float_of_Z (z : Z) : spec_float := binary_normalize prec emax z 0 false.

(** [float(z)], and the conversion of an [int] operand next to a [float]. *)
Definition int_to_float (z : Z) : result spec_float :=
  match float_of_Z z with
  | S754_infinity _ => Raise (Exn OverflowError "int too large to convert to float")
  | f => Ok f
  end.

(** [a / b] on two [int]s: the correctly rounded quotient. *)
Definition int_truediv (a b : Z) : result spec_float :=
  if b =? 0 then Raise (Exn ZeroDivisionError "division by zero")
  else
    let s := xorb (a <? 0) (b <? 0) in
    if a =? 0 then Ok (S754_zero s)
    else
      let '(q, e, l) := SFdiv_core_binary prec emax (Z.abs a) 0 (Z.abs b) 0 in
      match binary_round_aux prec emax s q e l with
      | S754_infinity _ =>
          Raise (Exn OverflowError "integer division result too large for a float")
      | f => Ok f
      end.

Definition is_zero (f : spec_float) : bool :=
  match f with
  | S754_zero _ => true
  | _ => false
  end.

Definition unsupported (op : string) (v : pyval) : exn :=
  Exn TypeError
    ("unsupported operand type(s) for " +:+ op +:+ ": '" +:+ type_name v +:+ "' and 'int'").

Fixpoint repeat_string (n : nat) (s : string) : string :=
  match n with
  | O => ""
  | S n' => s +:+ repeat_string n' s
  end.

Fixpoint repeat_list {A} (n : nat) (l : list A) : list A :=
  match n with
  | O => []
  | S n' => l ++ repeat_list n' l
  end.

(** [v * k] for an [int] literal [k]. *)
Definition mul_int (v : pyval) (k : Z) : result pyval :=
  match v with
  | PBool b => Ok (PInt (Z.b2z b * k))
  | PInt z => Ok (PInt (z * k))
  | PFloat f => rbind (int_to_float k) (fun g => Ok (PFloat (SFmul prec emax f g)))
  | PStr s => Ok (PStr (repeat_string (Z.to_nat k) s))
  | PList l => Ok (PList (repeat_list (Z.to_nat k) l))
  | PNone | PDict _ => Raise (unsupported "*" v)
  end.

(** [v / k] for an [int] literal [k]. *)
Definition truediv_int (v : pyval) (k : Z) : result pyval :=
  match v with
  | PBool b => rbind (int_truediv (Z.b2z b) k) (fun f => Ok (PFloat f))
  | PInt z => rbind (int_truediv z k) (fun f => Ok (PFloat f))
  | PFloat f =>
      rbind (int_to_float k) (fun g =>
        if is_zero g then Raise (Exn ZeroDivisionError "float division by zero")
        else Ok (PFloat (SFdiv prec emax f g)))
  | _ => Raise (unsupported "/" v)
  end.

(** [v + k] for an [int] literal [k]. *)
Definition add_int (v : pyval) (k : Z) : result pyval :=
  match v with
  | PBool b => Ok (PInt (Z.b2z b + k))
  | PInt z => Ok (PInt (z + k))
  | PFloat f => rbind (int_to_float k) (fun g => Ok (PFloat (SFadd prec emax f g)))
  | PStr _ =>
      let dq := String "034"%char "" in
      Raise (Exn TypeError ("can only concatenate str (not " +:+ dq +:+ "int" +:+ dq +:+ ") to str"))
  | PList _ =>
      let dq := String "034"%char "" in
      Raise (Exn TypeError ("can only concatenate list (not " +:+ dq +:+ "int" +:+ dq +:+ ") to list"))
  | PNone | PDict _ => Raise (unsupported "+" v)
  end.

(** *** [format(x, ".1f")] *)

(** [num / den] rounded to the nearest integer, ties to even ([den > 0]). *)
Definition round_half_even (num den : Z) : Z :=
  let q := num / den in
  let r := num mod den in
  match 2 * r ?= den with
  | Lt => q
  | Gt => q + 1
  | Eq => if Z.even q then q else q + 1
  end.

(** The number of tenths in [m * 2^e], correctly rounded. *)
Definition tenths (m : positive) (e : Z) : Z :=
  if 0 <=? e then 10 * Z.pos m * 2 ^ e
  else round_half_even (10 * Z.pos m) (2 ^ (- e)).

(** [n] tenths in fixed notation with one digit after the point. *)
Definition fixed1 (n : Z) : string :=
  pretty (n / 10) +:+ "." +:+ pretty (n mod 10).

Definition sign_text (s : bool) : string := if s then "-" else "".

Definition float_format_1f (x : spec_float) : string :=
  match x with
  | S754_nan => "nan"
  | S754_infinity s => sign_text s +:+ "inf"
  | S754_zero s => sign_text s +:+ "0.0"
  | S754_finite s m e => sign_text s +:+ fixed1 (tenths m e)
  end.

(** [f"{v:.1f}"]. *)
Definition format_1f (v : pyval) : result string :=
  match v with
  | PBool b => Ok (float_format_1f (float_of_Z (Z.b2z b)))
  | PInt z => rbind (int_to_float z) (fun f => Ok (float_format_1f f))
  | PFloat f => Ok (float_format_1f f)
  | PStr _ => Raise (Exn ValueError "Unknown format code 'f' for object of type 'str'")
  | _ =>
      Raise (Exn TypeError
        ("unsupported format string passed to " +:+ type_name v +:+ ".__format__"))
  end.

(** *** Truth value, comparison with a string, subscripting *)

(** [bool(v)], as tested by [if not v]. *)
Definition truthy (v : pyval) : bool :=
  match v with
  | PNone => false
  | PBool b => b
  | PInt z => negb (z =? 0)
  | PFloat f => negb (is_zero f)
  | PStr s => negb (String.eqb s "")
  | PList l => match l with [] => false | _ => true end
  | PDict d => match d with [] => false | _ => true end
  end.

(** [v != s] for a string literal [s]. *)
Definition ne_str (v : pyval) (s : string) : bool :=
  match v with
  | PStr t => negb (String.eqb t s)
  | _ => true
  end.

Fixpoint assoc (k : string) (d : list (string * pyval)) : option pyval :=
  match d with
  | [] => None
  | (k', v) :: d' => if String.eqb k k' then Some v else assoc k d'
  end.

(** [d[k] = v] on a dict: an existing key keeps its place. *)
Fixpoint dict_set (d : list (string * pyval)) (k : string) (v : pyval)
  : list (string * pyval) :=
  match d with
  | [] => [(k, v)]
  | (k', v') :: d' =>
      if String.eqb k k' then (k, v) :: d' else (k', v') :: dict_set d' k v
  end.

(** Python's index normalisation: a negative index counts from the end. *)
Definition index_of (len i : Z) : option nat :=
  if (0 <=? i) && (i <? len) then Some (Z.to_nat i)
  else if (i <? 0) && (0 <=? len + i) then Some (Z.to_nat (len + i))
  else None.

Fixpoint string_nth (n : nat) (s : string) : option ascii :=
  match s, n with
  | EmptyString, _ => None
  | String c _, O => Some c
  | String _ s', S n' => string_nth n' s'
  end.

Section Interpreter.

(** Python's built-in [repr], whose text for floats and for quoted
    strings is the interpreter's. *)
Variable repr : pyval -> string.

(** [str(v)], which is also what an f-string field without a format
    specification inserts. *)
Definition str (v : pyval) : string :=
  match v with
  | PStr s => s
  | _ => repr v
  end.

Definition not_subscriptable (v : pyval) : exn :=
  Exn TypeError ("'" +:+ type_name v +:+ "' object is not subscriptable").

(** [v[k]] for a string literal [k]. *)
Definition getitem_str (v : pyval) (k : string) : result pyval :=
  match v with
  | PDict d =>
      match assoc k d with
      | Some x => Ok x
      | None => Raise (Exn KeyError (repr (PStr k)))
      end
  | PList _ => Raise (Exn TypeError "list indices must be integers or slices, not str")
  | PStr _ => Raise (Exn TypeError "string indices must be integers, not 'str'")
  | _ => Raise (not_subscriptable v)
  end.

(** [v[i]] for an [int] literal [i]. The keys of a parsed JSON object are
    strings, so an [int] is never one of them. *)
Definition getitem_int (v : pyval) (i : Z) : result pyval :=
  match v with
  | PDict _ => Raise (Exn KeyError (repr (PInt i)))
  | PList l =>
      match index_of (Z.of_nat (length l)) i with
      | Some n =>
          match nth_error l n with
          | Some x => Ok x
          | None => Raise (Exn IndexError "list index out of range")
          end
      | None => Raise (Exn IndexError "list index out of range")
      end
  | PStr s =>
      match index_of (Z.of_nat (String.length s)) i with
      | Some n =>
          match string_nth n s with
          | Some c => Ok (PStr (String c ""))
          | None => Raise (Exn IndexError "string index out of range")
          end
      | None => Raise (Exn IndexError "string index out of range")
      end
  | _ => Raise (not_subscriptable v)
  end.

(** [v.get(k, default)]. *)
Definition dict_get (v : pyval) (k : string) (dflt : pyval) : result pyval :=
  match v with
  | PDict d => Ok (default dflt (assoc k d))
  | _ =>
      Raise (Exn AttributeError
        ("'" +:+ type_name v +:+ "' object has no attribute 'get'"))
  end.

End Interpreter.

End Py.

(* ===================================================================== *)
(** ** agent.py: the two tool functions *)
(* ===================================================================== *)

Module Agent.
Import Py.

(** A call [requests.get(url, params=params)]. *)
Record Request := { req_url : string; req_params : list (string * pyval) }.

(** What the tools use of a [requests.Response]: the exception that
    [raise_for_status()] raises, if any, and the outcome of [json()]. *)
Record Response := { status_error : option exn; json_body : result pyval }.

(** The world a tool runs in: the process environment and the network. *)
Record World := {
  environ : gmap string string;
  http : Request -> result Response
}.

(** A dictionary returned by a tool. *)
Abbreviation envelope := (gmap string string).

(** Computations that read the world, log the requests they send, and
    return a value or raise. *)
Definition Eff (A : Type) : Type := World -> list Request -> result A * list Request.

Definition ret {A} (a : A) : Eff A := fun _ log => (Ok a, log).

Definition raise {A} (e : exn) : Eff A := fun _ log => (Raise e, log).

Definition bind {A B} (c : Eff A) (k : A -> Eff B) : Eff B :=
  fun w log =>
    match c w log with
    | (Ok a, log') => k a w log'
    | (Raise e, log') => (Raise e, log')
    end.

Definition lift {A} (r : result A) : Eff A := fun _ log => (r, log).

(** [try: c  except ...]: [h e] is the body of the first [except] clause
    that matches [e], or [None] when no clause does. *)
Definition try_except {A} (c : Eff A) (h : exn -> option (Eff A)) : Eff A :=
  fun w log =>
    match c w log with
    | (Ok a, log') => (Ok a, log')
    | (Raise e, log') =>
        match h e with
        | Some k => k w log'
        | None => (Raise e, log')
        end
    end.

Declare Scope eff_scope.
Delimit Scope eff_scope with eff.
Notation "x <- c ;; k" := (bind c (fun x => k))
  (at level 100, c at next level, right associativity) : eff_scope.
Notation "c ;;; k" := (bind c (fun _ => k))
  (at level 100, right associativity) : eff_scope.
Open Scope eff_scope.

(** [os.environ.get(name)]. *)
Definition environ_get (name : string) : Eff (option string) :=
  fun w log => (Ok (environ w !! name), log).

(** [if not api_key]: [None] and the empty string are false. *)
Definition missing (key : option string) : bool :=
  match key with
  | None => true
  | Some k => String.eqb k ""
  end.

(** [requests.get(url, params=params)]. *)
Definition requests_get (url : string) (params : list (string * pyval)) : Eff Response :=
  fun w log =>
    let r := {| req_url := url; req_params := params |} in
    (http w r, (log ++ [r])%list).

(** [response.raise_for_status()]. *)
Definition raise_for_status (r : Response) : Eff unit :=
  match status_error r with
  | Some e => raise e
  | None => ret tt
  end.

(** [response.json()]. *)
Definition json (r : Response) : Eff pyval := lift (json_body r).

Section Tools.

Variable repr : pyval -> string.

Definition get_weather (city : string) : Eff envelope :=
  api_key <- environ_get "WEATHER_API_KEY" ;;
  if missing api_key then
    ret {[ "status" := "error";
           "error_message" := "Weather API key not found in environment variables." ]}
  else
    let base_url := "https://api.openweathermap.org/data/2.5/weather" in
    let params := [ ("q", PStr city);
                    ("appid", PStr (default "" api_key));
                    ("units", PStr "metric") ] in
    try_except
      (response <- requests_get base_url params ;;
       raise_for_status response ;;;
       data <- json response ;;
       main <- lift (getitem_str repr data "main") ;;
       temp_c <- lift (getitem_str repr main "temp") ;;
       t9 <- lift (mul_int temp_c 9) ;;
       t95 <- lift (truediv_int t9 5) ;;
       temp_f <- lift (add_int t95 32) ;;
       weather <- lift (getitem_str repr data "weather") ;;
       weather0 <- lift (getitem_int repr weather 0) ;;
       weather_desc <- lift (getitem_str repr weather0 "description") ;;
       celsius <- lift (format_1f temp_c) ;;
       fahrenheit <- lift (format_1f temp_f) ;;
       ret {[ "status" := "success";
              "report" :=
                "The weather in " +:+ city +:+ " is " +:+ str repr weather_desc
                +:+ " with a temperature of " +:+ celsius +:+ " degrees"
                +:+ " Celsius (" +:+ fahrenheit +:+ " degrees Fahrenheit)." ]})
      (fun e =>
         if is_RequestException (exn_cls e) then
           Some (ret {[ "status" := "error";
                        "error_message" :=
                          "Error fetching weather for '" +:+ city +:+ "': " +:+ exn_str e ]})
         else
           match exn_cls e with
           | KeyError | IndexError =>
               Some (ret {[ "status" := "error";
                            "error_message" :=
                              "Error parsing weather data for '" +:+ city +:+ "': "
                              +:+ exn_str e ]})
           | _ => None
           end).

Definition get_current_time (city : string) : Eff envelope :=
  api_key <- environ_get "TIMEZONE_API_KEY" ;;
  if missing api_key then
    ret {[ "status" := "error";
           "error_message" := "Timezone API key not found in environment variables." ]}
  else
    let base_url := "https://api.timezonedb.com/v2.1/get-time-zone" in
    let params := [ ("key", PStr (default "" api_key));
                    ("format", PStr "json");
                    ("by", PStr "position");
                    ("fields", PStr "zoneName,formatted") ] in
    try_except
      (weather_api_key <- environ_get "WEATHER_API_KEY" ;;
       if missing weather_api_key then
         ret {[ "status" := "error";
                "error_message" :=
                  "Weather API key not found in environment variables (needed for geocoding)." ]}
       else
         let geocode_url := "https://api.openweathermap.org/geo/1.0/direct" in
         let geocode_params := [ ("q", PStr city);
                                 ("limit", PInt 1);
                                 ("appid", PStr (default "" weather_api_key)) ] in
         geocode_response <- requests_get geocode_url geocode_params ;;
         raise_for_status geocode_response ;;;
         geocode_data <- json geocode_response ;;
         if negb (truthy geocode_data) then
           ret {[ "status" := "error";
                  "error_message" := "Could not find location data for '" +:+ city +:+ "'." ]}
         else
           first <- lift (getitem_int repr geocode_data 0) ;;
           lat <- lift (getitem_str repr first "lat") ;;
           first' <- lift (getitem_int repr geocode_data 0) ;;
           lon <- lift (getitem_str repr first' "lon") ;;
           let params := dict_set (dict_set params "lat" lat) "lng" lon in
           timezone_response <- requests_get base_url params ;;
           raise_for_status timezone_response ;;;
           timezone_data <- json timezone_response ;;
           status <- lift (getitem_str repr timezone_data "status") ;;
           if ne_str status "OK" then
             message <- lift (dict_get timezone_data "message" (PStr "Unknown error")) ;;
             ret {[ "status" := "error";
                    "error_message" := "Error fetching timezone data: " +:+ str repr message ]}
           else
             formatted_time <- lift (getitem_str repr timezone_data "formatted") ;;
             zone_name <- lift (getitem_str repr timezone_data "zoneName") ;;
             let report := "The current time in " +:+ city +:+ " is "
                           +:+ str repr formatted_time
                           +:+ " (" +:+ str repr zone_name +:+ ")" in
             ret {[ "status" := "success"; "report" := report ]})
      (fun e =>
         if is_RequestException (exn_cls e) then
           Some (ret {[ "status" := "error";
                        "error_message" :=
                          "Error fetching time data for '" +:+ city +:+ "': " +:+ exn_str e ]})
         else
           match exn_cls e with
           | KeyError | IndexError =>
               Some (ret {[ "status" := "error";
                            "error_message" :=
                              "Error parsing time data for '" +:+ city +:+ "': "
                              +:+ exn_str e ]})
           | _ => None
           end).

(** The tools of [root_agent], by name. *)
Inductive tool := GetWeather | GetCurrentTime.

Definition tool_name (t : tool) : string :=
  match t with
  | GetWeather => "get_weather"
  | GetCurrentTime => "get_current_time"
  end.

Definition tool_function (t : tool) : string -> Eff envelope :=
  match t with
  | GetWeather => get_weather
  | GetCurrentTime => get_current_time
  end.

(** A call of a tool from a fresh request log. *)
Definition call (t : tool) (city : string) (w : World) : result envelope * list Request :=
  tool_function t city w [].

End Tools.

End Agent.

(* ===================================================================== *)
(** ** Tool, registry and dispatcher *)
(* ===================================================================== *)

Module Core.
Import Py.

(** Modelled from the spec: the Result Envelope of the data model, whose
    class is in no source file. Its status is a closed choice of two,
    success carrying a report and error carrying an error message. *)
Inductive ResultEnvelope :=
  | Success (report : string)
  | Error (error_message : string).

Inductive Status := success | error.

Definition status_of (e : ResultEnvelope) : Status :=
  match e with
  | Success _ => success
  | Error _ => error
  end.

(** Modelled from the spec: the class [Tool] that [cli.py] imports from
    the agent module and builds with [name], [function] and [description];
    no source file declares it. The function takes a mapping of named
    arguments and returns an envelope, or raises. *)
Record Tool := {
  name : string;
  function : gmap string pyval -> Agent.World -> result ResultEnvelope;
  description : string
}.

(** Modelled from the spec: [Tool.invoke], absent from the sources. A
    failure of the underlying function is caught at this boundary and
    turned into an error envelope whose message includes the tool name and
    the original failure reason; the spec fixes what the message includes
    and leaves its wording open, so the wording here is one such message. *)
Definition invoke (t : Tool) (arguments : gmap string pyval) (w : Agent.World)
  : ResultEnvelope :=
  match function t arguments w with
  | Ok envelope => envelope
  | Raise e => Error ("Tool '" +:+ name t +:+ "' failed: " +:+ exn_str e)
  end.

(** Modelled from the spec: the errors of the registry (module [tools],
    absent from the sources). *)
Inductive RegistryError :=
  | ToolNotFoundError (n : string)
  | DuplicateToolError (n : string).

(** Modelled from the spec: what [register] does with a name that is
    already present. The spec leaves the choice open and asks for it to be
    fixed; both choices are modelled. *)
Inductive DuplicatePolicy := FailLoud | Overwrite.

(** Modelled from the spec: the registry that [cli.py] imports from the
    module [tools], absent from the sources: a mapping from tool name to
    tool, and the names in registration order for listing. *)
Record Registry := {
  tools : gmap string Tool;
  names : list string
}.

(** Modelled from the spec: the registry is empty at startup. *)
Definition empty : Registry := {| tools := ∅; names := [] |}.

(** Modelled from the spec: [register] of the absent registry. *)
Definition register (p : DuplicatePolicy) (t : Tool) (r : Registry)
  : Registry + RegistryError :=
  match tools r !! name t with
  | None => inl {| tools := <[name t := t]> (tools r); names := names r ++ [name t] |}
  | Some _ =>
      match p with
      | FailLoud => inr (DuplicateToolError (name t))
      | Overwrite => inl {| tools := <[name t := t]> (tools r); names := names r |}
      end
  end.

(** Modelled from the spec: [lookup] of the absent registry ([get_tool]
    in [cli.py]). *)
Definition lookup (n : string) (r : Registry) : Tool + RegistryError :=
  match tools r !! n with
  | Some t => inl t
  | None => inr (ToolNotFoundError n)
  end.

(** Modelled from the spec: [list_tools] of the absent registry. *)
Definition list_tools (r : Registry) : list string := names r.

(** Modelled from the spec: [get_tool_descriptions] of the absent
    registry, in listing order. *)
Definition get_tool_descriptions (r : Registry) : list (string * string) :=
  omap (fun n => (fun t => (n, description t)) <$> tools r !! n) (names r).

(** A registration call during initialisation: a rejected call leaves the
    registry as it was. *)
Definition registered (p : DuplicatePolicy) (r : Registry) (t : Tool) : Registry :=
  match register p t r with
  | inl r' => r'
  | inr _ => r
  end.

(** Whether a registration call is accepted. *)
Definition accepts (p : DuplicatePolicy) (r : Registry) (t : Tool) : bool :=
  match register p t r with
  | inl _ => true
  | inr _ => false
  end.

(** The registry after a sequence of registration calls from startup. *)
Definition populate (p : DuplicatePolicy) (r : Registry) (ts : list Tool) : Registry :=
  foldl (registered p) r ts.

(** Modelled from the spec: the policy choices of the dispatcher, which
    the spec leaves open: whether a missing tool or a failing tool ends
    the run, and whether the result shows the first failure or all. *)
Record DispatchPolicy := {
  abort_on_missing : bool;
  abort_on_failure : bool;
  surface_all : bool
}.

(** Modelled from the spec: the Dispatch Outcome of the data model (the
    dictionary that [agent.run] returns in [cli.py]). *)
Record DispatchOutcome := {
  task : string;
  status : Status;
  tools_used : list string;
  result : string
}.

(** Modelled from the spec: what the external selection process returns
    for a task: the tools to invoke with their arguments, in order, and
    the direct answer used when no tool is invoked. *)
Record Selection := {
  chosen : list (string * gmap string pyval);
  answer : string
}.

(** What a run has done so far: the tools invoked, their envelopes, and
    the selected names that the registry did not have. *)
Record Progress := {
  used : list string;
  envelopes : list ResultEnvelope;
  missing : list string
}.

Definition start : Progress := {| used := []; envelopes := []; missing := [] |}.

(** Modelled from the spec: step 2 of the dispatcher's algorithm (class
    [MultiToolAgent], absent from the sources): each selected tool is
    looked up and invoked in order. *)
Fixpoint invoke_each (pol : DispatchPolicy) (r : Registry) (w : Agent.World)
    (sel : list (string * gmap string pyval)) (acc : Progress) : Progress :=
  match sel with
  | [] => acc
  | (n, arguments) :: rest =>
      match lookup n r with
      | inr _ =>
          let acc' := {| used := used acc; envelopes := envelopes acc;
                         missing := missing acc ++ [n] |} in
          if abort_on_missing pol then acc' else invoke_each pol r w rest acc'
      | inl t =>
          let envelope := invoke t arguments w in
          let acc' := {| used := used acc ++ [n];
                         envelopes := envelopes acc ++ [envelope];
                         missing := missing acc |} in
          match envelope with
          | Error _ => if abort_on_failure pol then acc' else invoke_each pol r w rest acc'
          | Success _ => invoke_each pol r w rest acc'
          end
      end
  end.

Definition error_messages (es : list ResultEnvelope) : list string :=
  omap (fun e => match e with Error m => Some m | Success _ => None end) es.

Definition reports (es : list ResultEnvelope) : list string :=
  omap (fun e => match e with Success s => Some s | Error _ => None end) es.

Definition not_found_message (n : string) : string := "Tool '" +:+ n +:+ "' not found".

(** Modelled from the spec: step 3 of the dispatcher's algorithm: the
    aggregate status and the result text. *)
Definition aggregate (pol : DispatchPolicy) (tsk : string) (direct : string)
    (p : Progress) : DispatchOutcome :=
  match error_messages (envelopes p), missing p with
  | [], [] =>
      {| task := tsk; status := success; tools_used := used p;
         result := match envelopes p with
                   | [] => direct
                   | _ => String.concat "; " (reports (envelopes p))
                   end |}
  | failed, absent =>
      {| task := tsk; status := error; tools_used := used p;
         result := String.concat "; "
                     ((if surface_all pol then failed else take 1 failed)
                      ++ (not_found_message <$> absent)) |}
  end.

(** Modelled from the spec: [run] of the dispatcher, with the selection
    for the task supplied by the external process. *)
Definition run (pol : DispatchPolicy) (r : Registry) (w : Agent.World)
    (sel : Selection) (tsk : string) : DispatchOutcome :=
  aggregate pol tsk (answer sel) (invoke_each pol r w (chosen sel) start).

Section RootAgentTools.

Variable repr : pyval -> string.

(** A dictionary returned by a tool function, read as an envelope. *)
Definition envelope_of (d : gmap string string) : Py.result ResultEnvelope :=
  match d !! "status" with
  | Some st =>
      if String.eqb st "success" then
        match d !! "report" with
        | Some s => Ok (Success s)
        | None => Raise (Exn KeyError (repr (PStr "report")))
        end
      else
        match d !! "error_message" with
        | Some m => Ok (Error m)
        | None => Raise (Exn KeyError (repr (PStr "error_message")))
        end
  | None => Raise (Exn KeyError (repr (PStr "status")))
  end.

(** A tool function [f(city: str)] called with the mapping as keyword
    arguments: the one string argument its signature declares; any other
    mapping does not fit the signature. *)
Definition call_with_city (f : string -> Agent.Eff (gmap string string))
    (arguments : gmap string pyval) (w : Agent.World) : Py.result ResultEnvelope :=
  match map_to_list arguments with
  | [(k, PStr city)] =>
      if String.eqb k "city" then rbind (fst (f city w [])) envelope_of
      else Raise (Exn TypeError "got an unexpected keyword argument")
  | _ => Raise (Exn TypeError "arguments do not match the signature (city: str)")
  end.

(** The two tools of [root_agent], with the docstring summaries as
    descriptions. *)
Definition weather_tool : Tool :=
  {| name := "get_weather";
     function := call_with_city (Agent.get_weather repr);
     description := "Retrieves the current weather report for a specified city." |}.

Definition time_tool : Tool :=
  {| name := "get_current_time";
     function := call_with_city (Agent.get_current_time repr);
     description := "Returns the current time in a specified city." |}.

End RootAgentTools.

End Core.

(* ===================================================================== *)
(** ** cli.py: the command-line entry point *)
(* ===================================================================== *)

Module Cli.
Import Py.

Inductive OutputFormat := text | json.

(** The namespace that [parse_args] returns. *)
Record Args := {
  task : option string;
  config : option string;
  log_level : string;
  tool : option string;
  list_tools : bool;
  output : OutputFormat
}.

(** [if args.task:], [if args.config:]: an absent or empty string is false. *)
Definition given (a : option string) : bool :=
  match a with
  | None => false
  | Some s => negb (String.eqb s "")
  end.

(** The dictionary that [agent.run] returns, with the four keys [main]
    reads. *)
Record RunResult := {
  r_task : string;
  r_status : string;
  r_tools_used : list string;
  r_result : string
}.

Definition registry_exn (e : Core.RegistryError) : exn :=
  match e with
  | Core.ToolNotFoundError n => Exn ToolNotFound n
  | Core.DuplicateToolError n => Exn DuplicateTool n
  end.

(** [create_agent]: every listed tool is fetched from the registry,
    rebuilt as a [Tool] under the listed name, and added to a new agent,
    whose catalogue is a registry of its own. *)
Fixpoint add_tools (p : Core.DuplicatePolicy) (registry : Core.Registry)
    (listed : list string) (agent : Core.Registry) : Core.Registry + Core.RegistryError :=
  match listed with
  | [] => inl agent
  | tool_name :: rest =>
      match Core.lookup tool_name registry with
      | inr e => inr e
      | inl tool_info =>
          let tool := {| Core.name := tool_name;
                         Core.function := Core.function tool_info;
                         Core.description := Core.description tool_info |} in
          match Core.register p tool agent with
          | inr e => inr e
          | inl agent' => add_tools p registry rest agent'
          end
      end
  end.

Definition create_agent (p : Core.DuplicatePolicy) (registry : Core.Registry)
  : Core.Registry + Core.RegistryError :=
  add_tools p registry (Core.list_tools registry) Core.empty.

(** What [main] reaches outside [cli.py]: the global registry with its
    duplicate policy, [Config(path)] (the exception it raises, if any),
    the outcome of [agent.run(args.task)], and [json.dumps(result,
    indent=2)]. *)
Record Collaborators := {
  registry : Core.Registry;
  policy : Core.DuplicatePolicy;
  load_config : string -> option exn;
  run_task : result RunResult;
  dumps : RunResult -> string
}.

(** One turn of an interactive session: what [input] gives, and what
    [agent.run(task)] gives if the turn calls it. *)
Record Turn := {
  entered : result string;
  ran : result RunResult
}.

(** How [main] ends: it returns, an exception leaves it, or it is still
    in the loop when the turns counted by the fuel are used up. *)
Inductive Exit :=
  | Returns
  | Raises (e : exn)
  | Runs.

Definition lower_ascii (c : ascii) : ascii :=
  let n := nat_of_ascii c in
  if (65 <=? n)%nat && (n <=? 90)%nat then ascii_of_nat (n + 32) else c.

(** [task.lower()]. A string is its UTF-8 bytes; the letters of the three
    commands are ASCII, and no other character lowers to one of them. *)
Fixpoint lower (s : string) : string :=
  match s with
  | EmptyString => EmptyString
  | String c s' => String (lower_ascii c) (lower s')
  end.

(** The lines [main] prints for the registry listing. *)
Definition listing (descriptions : list (string * string)) : list string :=
  "Available tools:" ::
  map (fun '(n, d) => "  - " +:+ n +:+ ": " +:+ d) descriptions.

Definition tools_used_text (used : list string) : string :=
  match used with
  | [] => "None"
  | _ => String.concat ", " used
  end.

(** The lines printed for a result in the interactive loop. *)
Definition display (c : Collaborators) (fmt : OutputFormat) (r : RunResult) : list string :=
  match fmt with
  | json => [dumps c r]
  | text => [ "Status: " +:+ r_status r;
              "Tools used: " +:+ tools_used_text (r_tools_used r);
              "Result: " +:+ r_result r ]
  end.

(** The lines printed for the result of the task given on the command
    line. *)
Definition display_task (c : Collaborators) (fmt : OutputFormat) (r : RunResult) : list string :=
  match fmt with
  | json => [dumps c r]
  | text => ("Task: " +:+ r_task r) :: display c text r
  end.

Inductive Control :=
  | Continue
  | Break
  | Propagate (e : exn).

(** The two [except] clauses of the loop body, in order. *)
Definition handler (e : exn) : list string * Control :=
  match exn_cls e with
  | KeyboardInterrupt => ([String "010"%char "Exiting..."], Break)
  | cls =>
      if is_Exception cls then (["Error: " +:+ exn_str e], Continue)
      else ([], Propagate e)
  end.

Definition is_quit (line : string) : bool :=
  String.eqb (lower line) "exit" || String.eqb (lower line) "quit".

(** The body of [while True:]. *)
Definition iteration (c : Collaborators) (fmt : OutputFormat) (t : Turn)
  : list string * Control :=
  match entered t with
  | Raise e => handler e
  | Ok line =>
      if is_quit line then ([], Break)
      else if String.eqb (lower line) "tools" then
        (listing (Core.get_tool_descriptions (registry c)), Continue)
      else
        match ran t with
        | Raise e => handler e
        | Ok r => (display c fmt r, Continue)
        end
  end.

(** The loop over the turns of a session, from turn [i]. *)
Fixpoint loop (c : Collaborators) (fmt : OutputFormat) (session : nat -> Turn)
    (fuel i : nat) : list string * Exit :=
  match fuel with
  | O => ([], Runs)
  | S fuel' =>
      match iteration c fmt (session i) with
      | (out, Continue) =>
          let '(out', x) := loop c fmt session fuel' (S i) in (out ++ out', x)%list
      | (out, Break) => (out, Returns)
      | (out, Propagate e) => (out, Raises e)
      end
  end.

Definition banner : list string :=
  [ "Multi Tool Agent Interactive Mode";
    "Type 'exit' or 'quit' to exit";
    "Type 'tools' to list available tools" ].

(** [main], after [parse_args] and [setup_logging]: what it prints and
    how it ends. *)
Definition main (args : Args) (c : Collaborators) (session : nat -> Turn) (fuel : nat)
  : list string * Exit :=
  match (if given (config args) then load_config c (default "" (config args)) else None) with
  | Some e => ([], Raises e)
  | None =>
      if list_tools args then
        (listing (Core.get_tool_descriptions (registry c)), Returns)
      else
        match create_agent (policy c) (registry c) with
        | inr e => ([], Raises (registry_exn e))
        | inl agent =>
            if given (task args) then
              match run_task c with
              | Raise e => ([], Raises e)
              | Ok r => (display_task c (output args) r, Returns)
              end
            else
              let '(out, x) := loop c (output args) session fuel 0 in
              (banner ++ out, x)%list
        end
  end.

End Cli.

(* ===================================================================== *)
(** ** Properties of tool results, and sample inputs *)
(* ===================================================================== *)

Module Props.
Import Py Agent.

(** The envelope invariant: the status is one of the two, and exactly one
    of [report] and [error_message] is present, as the status says. *)
Definition well_formed (d : envelope) : Prop :=
  (d !! "status" = Some "success" /\ is_Some (d !! "report")
   /\ d !! "error_message" = None)
  \/ (d !! "status" = Some "error" /\ is_Some (d !! "error_message")
      /\ d !! "report" = None).

(** [ensures w c Q]: every value that [c] returns in the world [w]
    satisfies [Q]. *)
Definition ensures {A} (w : World) (c : Eff A) (Q : A -> Prop) : Prop :=
  forall log a log', c w log = (Ok a, log') -> Q a.

(** The environment variable a tool reads first. *)
Definition required_key (t : tool) : string :=
  match t with
  | GetWeather => "WEATHER_API_KEY"
  | GetCurrentTime => "TIMEZONE_API_KEY"
  end.

(** The request that [get_weather] sends for a city. *)
Definition weather_request (city : string) (w : World) : Request :=
  {| req_url := "https://api.openweathermap.org/data/2.5/weather";
     req_params := [ ("q", PStr city);
                     ("appid", PStr (default "" (environ w !! "WEATHER_API_KEY")));
                     ("units", PStr "metric") ] |}.

(** [temp_c * 9/5 + 32]. *)
Definition fahrenheit_of (temp_c : pyval) : result pyval :=
  rbind (mul_int temp_c 9) (fun t9 =>
  rbind (truediv_int t9 5) (fun t95 => add_int t95 32)).

(** The report shows the temperature read from the response, in Celsius
    and in Fahrenheit, both through [format_1f]. *)
Definition shows_temperatures (repr : pyval -> string) (city : string) (w : World)
    (d : envelope) : Prop :=
  exists response data main temp_c temp_f weather_desc celsius fahrenheit,
    http w (weather_request city w) = Ok response
    /\ json_body response = Ok data
    /\ getitem_str repr data "main" = Ok main
    /\ getitem_str repr main "temp" = Ok temp_c
    /\ fahrenheit_of temp_c = Ok temp_f
    /\ format_1f temp_c = Ok celsius
    /\ format_1f temp_f = Ok fahrenheit
    /\ d !! "report"
       = Some ("The weather in " +:+ city +:+ " is " +:+ weather_desc
               +:+ " with a temperature of " +:+ celsius
               +:+ " degrees Celsius (" +:+ fahrenheit +:+ " degrees Fahrenheit).").

Definition report_shows_temperatures (repr : pyval -> string) (city : string) (w : World)
    (d : envelope) : Prop :=
  d !! "status" = Some "success" -> shows_temperatures repr city w d.

(** Text with exactly one digit after the decimal point. *)
Definition one_decimal (s : string) : Prop :=
  exists (neg : bool) (whole digit : Z),
    0 <= whole /\ 0 <= digit < 10 /\
    s = sign_text neg +:+ pretty whole +:+ "." +:+ pretty digit.

Definition finite (f : spec_float) : bool :=
  match f with
  | S754_zero _ | S754_finite _ _ _ => true
  | _ => false
  end.

(** A stand-in for [repr] in the examples: the text Python gives for
    [None], booleans, integers, and strings of plain characters. *)
Definition sample_repr (v : pyval) : string :=
  match v with
  | PNone => "None"
  | PBool true => "True"
  | PBool false => "False"
  | PInt z => pretty z
  | PStr s => "'" +:+ s +:+ "'"
  | _ => "<" +:+ type_name v +:+ ">"
  end.

Definition ok_response (body : pyval) : result Response :=
  Ok {| status_error := None; json_body := Ok body |}.

(** A world in which both keys are set and the three services answer
    for Paris. *)
Definition paris : World :=
  {| environ := {[ "WEATHER_API_KEY" := "w-key"; "TIMEZONE_API_KEY" := "t-key" ]};
     http := fun r =>
       if String.eqb (req_url r) "https://api.openweathermap.org/data/2.5/weather" then
         ok_response
           (PDict [ ("weather", PList [ PDict [ ("description", PStr "clear sky") ] ]);
                    ("main", PDict [ ("temp", PInt 18) ]) ])
       else if String.eqb (req_url r) "https://api.openweathermap.org/geo/1.0/direct" then
         ok_response (PList [ PDict [ ("lat", PInt 48); ("lon", PInt 2) ] ])
       else
         ok_response
           (PDict [ ("status", PStr "OK");
                    ("formatted", PStr "2024-01-01 10:00:00");
                    ("zoneName", PStr "Europe/Paris") ]) |}.

(** A world with no environment variable set and no network. *)
Definition bare : World :=
  {| environ := ∅;
     http := fun _ => Raise (Exn ConnectionError "no network") |}.

(** Only the timezone key is set. *)
Definition timezone_only : World :=
  {| environ := {[ "TIMEZONE_API_KEY" := "t-key" ]};
     http := fun _ => Raise (Exn ConnectionError "no network") |}.

(** The weather service answers with a JSON array instead of an object. *)
Definition malformed : World :=
  {| environ := {[ "WEATHER_API_KEY" := "w-key" ]};
     http := fun _ => ok_response (PList []) |}.

(** A tool whose function returns the same envelope for every call. *)
Definition constant_tool (n : string) (e : Core.ResultEnvelope) : Core.Tool :=
  {| Core.name := n; Core.function := fun _ _ => Ok e; Core.description := "" |}.

Definition city_arguments (city : string) : gmap string pyval :=
  {[ "city" := PStr city ]}.

(** [e] is what [invoke] returned for a selected tool found in the
    registry under the name [n]. *)
Definition invoked (r : Core.Registry) (w : World)
    (sel : list (string * gmap string pyval)) (n : string) (e : Core.ResultEnvelope) : Prop :=
  exists t arguments,
    (n, arguments) ∈ sel /\ Core.lookup n r = inl t /\ e = Core.invoke t arguments w.

End Props.

(* ===================================================================== *)
(** ** Properties of registries and of interactive turns *)
(* ===================================================================== *)

Module Turns.
Import Py Cli.

(** What registration maintains: the listed names are distinct, they are
    the names that have an entry, and every entry sits under its own
    name. *)
Definition consistent (r : Core.Registry) : Prop :=
  NoDup (Core.names r)
  /\ (forall n, n ∈ Core.names r <-> is_Some (Core.tools r !! n))
  /\ (forall n t, Core.tools r !! n = Some t -> Core.name t = n).

(** The line of the turn is [exit] or [quit], in any letter case. *)
Definition quits (t : Turn) : Prop :=
  exists line, entered t = Ok line /\ (lower line = "exit" \/ lower line = "quit").

(** The exception raised in the body of the loop during a turn, if any:
    by [input], or by [agent.run] when the line is a task. *)
Definition raised (t : Turn) : option exn :=
  match entered t with
  | Raise e => Some e
  | Ok line =>
      if is_quit line || String.eqb (lower line) "tools" then None
      else match ran t with
           | Raise e => Some e
           | Ok _ => None
           end
  end.

(** A [KeyboardInterrupt] occurs in the turn. *)
Definition interrupted (t : Turn) : Prop :=
  exists e, raised t = Some e /\ exn_cls e = KeyboardInterrupt.

(** An exception that neither [except] clause catches occurs in the turn. *)
Definition escapes (t : Turn) : Prop :=
  exists e, raised t = Some e /\ exn_cls e <> KeyboardInterrupt
            /\ is_Exception (exn_cls e) = false.

(** The turn is processed and the loop goes on. *)
Definition stays (t : Turn) : Prop := ~ quits t /\ ~ interrupted t /\ ~ escapes t.

(** Start-up succeeds: the configuration file, if one is given, loads,
    and the registry is what registration calls built from the empty
    one. *)
Definition starts (args : Args) (c : Collaborators) : Prop :=
  (given (config args) = true -> load_config c (default "" (config args)) = None)
  /\ exists p ts, registry c = Core.populate p Core.empty ts.

(** Collaborators for the examples: the registry holds the two tools of
    the agent, no configuration file fails to load, and [dumps] stands in
    for the JSON text with the result string. *)
Definition sample_collaborators : Collaborators :=
  {| registry := Core.populate Core.FailLoud Core.empty
                   [ Core.weather_tool Props.sample_repr; Core.time_tool Props.sample_repr ];
     policy := Core.FailLoud;
     load_config := fun _ => None;
     run_task := Ok {| r_task := "What's the weather in Paris?"; r_status := "success";
                       r_tools_used := ["get_weather"]; r_result := "clear sky, 18.0C" |};
     dumps := r_result |}.

Definition paris_result : RunResult :=
  {| r_task := "weather in Paris"; r_status := "success";
     r_tools_used := ["get_weather"]; r_result := "clear sky, 18.0C" |}.

(** A session of three turns: a task, the listing, and [QUIT]. *)
Definition short_session (i : nat) : Turn :=
  match i with
  | O => {| entered := Ok "weather in Paris"; ran := Ok paris_result |}
  | S O => {| entered := Ok "Tools"; ran := Ok paris_result |}
  | _ => {| entered := Ok "QUIT"; ran := Ok paris_result |}
  end.

(** A session in which every line is a task. *)
Definition endless_session (i : nat) : Turn :=
  {| entered := Ok "weather in Paris"; ran := Ok paris_result |}.

Definition interactive : Args :=
  {| task := None; config := None; log_level := "INFO"; tool := None;
     list_tools := false; output := text |}.

Definition listing_only : Args :=
  {| task := None; config := None; log_level := "INFO"; tool := None;
     list_tools := true; output := text |}.

End Turns.

(* ===================================================================== *)
(** ** Requests sent, exceptions let through, and sessions without input *)
(* ===================================================================== *)

Module Traces.
Import Py Agent.

(** [performs w c Q]: run in the world [w] from any request log, [c]
    appends the requests [sent] to the log and ends with an outcome [r]
    such that [Q r sent]. *)
Definition performs {A} (w : World) (c : Eff A)
    (Q : result A -> list Request -> Prop) : Prop :=
  forall log,
    exists sent, snd (c w log) = (log ++ sent)%list /\ Q (fst (c w log)) sent.

(** The exceptions that the [except] clauses of the two tools catch. *)
Definition caught (e : exn) : bool :=
  is_RequestException (exn_cls e)
  || match exn_cls e with
     | KeyError | IndexError => true
     | _ => false
     end.

(** The geocoding request that [get_current_time] sends for a city. *)
Definition geocode_request (city : string) (w : World) : Request :=
  {| req_url := "https://api.openweathermap.org/geo/1.0/direct";
     req_params := [ ("q", PStr city);
                     ("limit", PInt 1);
                     ("appid", PStr (default "" (environ w !! "WEATHER_API_KEY"))) ] |}.

(** The timezone request that [get_current_time] sends for coordinates. *)
Definition timezone_request (w : World) (lat lon : pyval) : Request :=
  {| req_url := "https://api.timezonedb.com/v2.1/get-time-zone";
     req_params := [ ("key", PStr (default "" (environ w !! "TIMEZONE_API_KEY")));
                     ("format", PStr "json");
                     ("by", PStr "position");
                     ("fields", PStr "zoneName,formatted");
                     ("lat", lat);
                     ("lng", lon) ] |}.

(** The requests of a time lookup: none, the geocoding request alone, or
    the geocoding request followed by the timezone request for the
    coordinates that the geocoding answer holds. *)
Definition time_requests (repr : pyval -> string) (city : string) (w : World)
    (sent : list Request) : Prop :=
  sent = []
  \/ sent = [geocode_request city w]
  \/ exists response data first lat lon,
       http w (geocode_request city w) = Ok response
       /\ json_body response = Ok data
       /\ getitem_int repr data 0 = Ok first
       /\ getitem_str repr first "lat" = Ok lat
       /\ getitem_str repr first "lon" = Ok lon
       /\ sent = [geocode_request city w; timezone_request w lat lon].

(** What a success has cost: the keys it needed and the number of
    requests sent. *)
Definition success_cost (t : tool) (w : World) (r : result envelope)
    (sent : list Request) : Prop :=
  forall d, r = Ok d -> d !! "status" = Some "success" ->
    missing (environ w !! "WEATHER_API_KEY") = false
    /\ (t = GetCurrentTime -> missing (environ w !! "TIMEZONE_API_KEY") = false)
    /\ length sent = match t with GetWeather => 1%nat | GetCurrentTime => 2%nat end.

(** The three ways in which fetching from a service fails: the request
    itself, [raise_for_status], or [json]. *)
Inductive fails_with (w : World) (rq : Request) (e : exn) : Prop :=
  | request_raises : http w rq = Raise e -> fails_with w rq e
  | status_raises response :
      http w rq = Ok response -> status_error response = Some e -> fails_with w rq e
  | body_raises response :
      http w rq = Ok response -> status_error response = None ->
      json_body response = Raise e -> fails_with w rq e.

(** A service answers a request with the JSON value [data]. *)
Definition answers (w : World) (rq : Request) (data : pyval) : Prop :=
  exists response,
    http w rq = Ok response /\ status_error response = None
    /\ json_body response = Ok data.

(** The report that the body of [get_weather] builds from the parsed
    answer, or the exception that building it raises. *)
Definition weather_report (repr : pyval -> string) (city : string) (data : pyval)
  : result string :=
  rbind (getitem_str repr data "main") (fun main =>
  rbind (getitem_str repr main "temp") (fun temp_c =>
  rbind (Props.fahrenheit_of temp_c) (fun temp_f =>
  rbind (getitem_str repr data "weather") (fun weather =>
  rbind (getitem_int repr weather 0) (fun weather0 =>
  rbind (getitem_str repr weather0 "description") (fun weather_desc =>
  rbind (format_1f temp_c) (fun celsius =>
  rbind (format_1f temp_f) (fun fahrenheit =>
    Ok ("The weather in " +:+ city +:+ " is " +:+ str repr weather_desc
        +:+ " with a temperature of " +:+ celsius +:+ " degrees"
        +:+ " Celsius (" +:+ fahrenheit +:+ " degrees Fahrenheit)."))))))))).

(** The [except] clauses of [get_weather]. *)
Definition weather_except (city : string) (e : exn) : result envelope :=
  if is_RequestException (exn_cls e) then
    Ok {[ "status" := "error";
          "error_message" := "Error fetching weather for '" +:+ city +:+ "': " +:+ exn_str e ]}
  else
    match exn_cls e with
    | KeyError | IndexError =>
        Ok {[ "status" := "error";
              "error_message" :=
                "Error parsing weather data for '" +:+ city +:+ "': " +:+ exn_str e ]}
    | _ => Raise e
    end.

(** The [except] clauses of [get_current_time]. *)
Definition time_except (city : string) (e : exn) : result envelope :=
  if is_RequestException (exn_cls e) then
    Ok {[ "status" := "error";
          "error_message" := "Error fetching time data for '" +:+ city +:+ "': " +:+ exn_str e ]}
  else
    match exn_cls e with
    | KeyError | IndexError =>
        Ok {[ "status" := "error";
              "error_message" :=
                "Error parsing time data for '" +:+ city +:+ "': " +:+ exn_str e ]}
    | _ => Raise e
    end.

(** The coordinates that [get_current_time] reads from the geocoding
    answer. *)
Definition coordinates (repr : pyval -> string) (data : pyval) : result (pyval * pyval) :=
  rbind (getitem_int repr data 0) (fun first =>
  rbind (getitem_str repr first "lat") (fun lat =>
  rbind (getitem_int repr data 0) (fun first' =>
  rbind (getitem_str repr first' "lon") (fun lon => Ok (lat, lon))))).

(** What [get_current_time] makes of the timezone answer. *)
Definition time_answer (repr : pyval -> string) (city : string) (timezone_data : pyval)
  : result envelope :=
  rbind (getitem_str repr timezone_data "status") (fun status =>
    if ne_str status "OK" then
      rbind (dict_get timezone_data "message" (PStr "Unknown error")) (fun message =>
        Ok {[ "status" := "error";
              "error_message" := "Error fetching timezone data: " +:+ str repr message ]})
    else
      rbind (getitem_str repr timezone_data "formatted") (fun formatted_time =>
      rbind (getitem_str repr timezone_data "zoneName") (fun zone_name =>
        Ok {[ "status" := "success";
              "report" := "The current time in " +:+ city +:+ " is "
                          +:+ str repr formatted_time
                          +:+ " (" +:+ str repr zone_name +:+ ")" ]}))).

(** [f * 9/5 + 32] on a float. *)
Definition fahrenheit_float (f : spec_float) : spec_float :=
  SFadd prec emax
    (SFdiv prec emax (SFmul prec emax f (float_of_Z 9)) (float_of_Z 5))
    (float_of_Z 32).

(** The exact value of a finite float, as a fraction. *)
Definition numerator (m : positive) (e : Z) : Z := if 0 <=? e then Z.pos m * 2 ^ e else Z.pos m.
Definition denominator (e : Z) : Z := if 0 <=? e then 1 else 2 ^ (- e).

(** The float that [format_1f] formats: a [float] itself, an [int] or a
    [bool] converted. *)
Definition float_value (v : pyval) : option spec_float :=
  match v with
  | PBool b => Some (float_of_Z (Z.b2z b))
  | PInt z => Some (float_of_Z z)
  | PFloat f => Some f
  | _ => None
  end.

(** What "formatted to one decimal place" asks of the text [s] shown for
    the float [x]: for a finite [x], the sign, then the integer part, the
    point and one digit of the number [n] of tenths nearest to the exact
    value of [x], the even one of two equally near; for a value that is
    not finite, its name. *)
Definition shown_to_one_decimal (x : spec_float) (s : string) : Prop :=
  match x with
  | S754_nan => s = "nan"
  | S754_infinity neg => s = if neg then "-inf" else "inf"
  | S754_zero neg => s = if neg then "-0.0" else "0.0"
  | S754_finite neg m e =>
      exists n,
        0 <= n
        /\ 2 * Z.abs (10 * numerator m e - n * denominator e) <= denominator e
        /\ (2 * Z.abs (10 * numerator m e - n * denominator e) = denominator e ->
            Z.even n = true)
        /\ s = (if neg then "-" else "") +:+ pretty (n / 10) +:+ "." +:+ pretty (n mod 10)
  end.

(** The report shows the temperature of the answer and its conversion,
    each to one decimal place. *)
Definition shows_rounded_temperatures (repr : pyval -> string) (city : string)
    (w : World) (d : envelope) : Prop :=
  exists response data main temp_c c f weather_desc celsius fahrenheit,
    http w (Props.weather_request city w) = Ok response
    /\ json_body response = Ok data
    /\ getitem_str repr data "main" = Ok main
    /\ getitem_str repr main "temp" = Ok temp_c
    /\ float_value temp_c = Some c
    /\ Props.fahrenheit_of temp_c = Ok (PFloat f)
    /\ shown_to_one_decimal c celsius
    /\ shown_to_one_decimal f fahrenheit
    /\ d !! "report"
       = Some ("The weather in " +:+ city +:+ " is " +:+ weather_desc
               +:+ " with a temperature of " +:+ celsius
               +:+ " degrees Celsius (" +:+ fahrenheit +:+ " degrees Fahrenheit).").

(** The [try] block of [get_weather] raises [e]: while fetching, or
    while building the report from the answer. *)
Inductive weather_raises (repr : pyval -> string) (city : string) (w : World) (e : exn)
  : Prop :=
  | weather_fetch_raises :
      fails_with w (Props.weather_request city w) e -> weather_raises repr city w e
  | weather_answer_raises data :
      answers w (Props.weather_request city w) data ->
      weather_report repr city data = Raise e ->
      weather_raises repr city w e.

(** The geocoding service has located the city. *)
Definition located (repr : pyval -> string) (city : string) (w : World)
    (lat lon : pyval) : Prop :=
  exists data,
    answers w (geocode_request city w) data
    /\ truthy data = true
    /\ coordinates repr data = Ok (lat, lon).

(** The [try] block of [get_current_time] raises [e]: while geocoding,
    while reading the coordinates, while fetching the timezone, or while
    reading the timezone answer. *)
Inductive time_raises (repr : pyval -> string) (city : string) (w : World) (e : exn)
  : Prop :=
  | geocoding_raises :
      fails_with w (geocode_request city w) e -> time_raises repr city w e
  | coordinates_raise data :
      answers w (geocode_request city w) data ->
      truthy data = true ->
      coordinates repr data = Raise e ->
      time_raises repr city w e
  | timezone_raises lat lon :
      located repr city w lat lon ->
      fails_with w (timezone_request w lat lon) e ->
      time_raises repr city w e
  | timezone_answer_raises lat lon timezone_data :
      located repr city w lat lon ->
      answers w (timezone_request w lat lon) timezone_data ->
      time_answer repr city timezone_data = Raise e ->
      time_raises repr city w e.

(** [root_cause repr t city w msg]: in the world [w], the call of [t]
    for [city] fails for a cause that [msg] states: the key that is
    missing, the exception that its [try] block raises (by its class a
    failure to fetch or to parse) with the city and the text of that
    exception, the location that the geocoding service does not know, or
    the refusal of the timezone service with its message. *)
Inductive root_cause (repr : pyval -> string)
  : tool -> string -> World -> string -> Prop :=
  | no_weather_key city w :
      missing (environ w !! "WEATHER_API_KEY") = true ->
      root_cause repr GetWeather city w
        "Weather API key not found in environment variables."
  | weather_not_fetched city w e :
      missing (environ w !! "WEATHER_API_KEY") = false ->
      weather_raises repr city w e ->
      is_RequestException (exn_cls e) = true ->
      root_cause repr GetWeather city w
        ("Error fetching weather for '" +:+ city +:+ "': " +:+ exn_str e)
  | weather_not_parsed city w e :
      missing (environ w !! "WEATHER_API_KEY") = false ->
      weather_raises repr city w e ->
      exn_cls e = KeyError \/ exn_cls e = IndexError ->
      root_cause repr GetWeather city w
        ("Error parsing weather data for '" +:+ city +:+ "': " +:+ exn_str e)
  | no_timezone_key city w :
      missing (environ w !! "TIMEZONE_API_KEY") = true ->
      root_cause repr GetCurrentTime city w
        "Timezone API key not found in environment variables."
  | no_geocoding_key city w :
      missing (environ w !! "TIMEZONE_API_KEY") = false ->
      missing (environ w !! "WEATHER_API_KEY") = true ->
      root_cause repr GetCurrentTime city w
        "Weather API key not found in environment variables (needed for geocoding)."
  | time_not_fetched city w e :
      missing (environ w !! "TIMEZONE_API_KEY") = false ->
      missing (environ w !! "WEATHER_API_KEY") = false ->
      time_raises repr city w e ->
      is_RequestException (exn_cls e) = true ->
      root_cause repr GetCurrentTime city w
        ("Error fetching time data for '" +:+ city +:+ "': " +:+ exn_str e)
  | time_not_parsed city w e :
      missing (environ w !! "TIMEZONE_API_KEY") = false ->
      missing (environ w !! "WEATHER_API_KEY") = false ->
      time_raises repr city w e ->
      exn_cls e = KeyError \/ exn_cls e = IndexError ->
      root_cause repr GetCurrentTime city w
        ("Error parsing time data for '" +:+ city +:+ "': " +:+ exn_str e)
  | city_not_located city w data :
      missing (environ w !! "TIMEZONE_API_KEY") = false ->
      missing (environ w !! "WEATHER_API_KEY") = false ->
      answers w (geocode_request city w) data ->
      truthy data = false ->
      root_cause repr GetCurrentTime city w
        ("Could not find location data for '" +:+ city +:+ "'.")
  | timezone_refuses city w lat lon timezone_data status message :
      missing (environ w !! "TIMEZONE_API_KEY") = false ->
      missing (environ w !! "WEATHER_API_KEY") = false ->
      located repr city w lat lon ->
      answers w (timezone_request w lat lon) timezone_data ->
      getitem_str repr timezone_data "status" = Ok status ->
      ne_str status "OK" = true ->
      dict_get timezone_data "message" (PStr "Unknown error") = Ok message ->
      root_cause repr GetCurrentTime city w
        ("Error fetching timezone data: " +:+ str repr message).

(** An error envelope carries the message of the cause of the failure. *)
Definition explains_error (repr : pyval -> string) (t : tool) (city : string) (w : World)
    (r : result envelope) (sent : list Request) : Prop :=
  forall d, r = Ok d -> d !! "status" = Some "error" ->
    exists msg, d !! "error_message" = Some msg /\ root_cause repr t city w msg.

(** The weather service reports a temperature that is not a number. *)
Definition nan_weather : World :=
  {| environ := environ Props.paris;
     http := fun _ =>
       Props.ok_response
         (PDict [ ("weather", PList [ PDict [ ("description", PStr "mist") ] ]);
                  ("main", PDict [ ("temp", PFloat S754_nan) ]) ]) |}.

(** [response.json()] gave a value that is not a [dict]. *)
Definition not_a_dict (v : pyval) : bool :=
  match v with
  | PDict _ => false
  | _ => true
  end.

(** The world of the Paris sample after the weather service has started
    to answer with status 401. *)
Definition unauthorized : World :=
  {| environ := environ Props.paris;
     http := fun _ =>
       Ok {| status_error := Some (Exn HTTPError "401 Client Error: Unauthorized");
             json_body := Ok PNone |} |}.

(** The geocoding service knows no such place. *)
Definition nowhere : World :=
  {| environ := environ Props.paris;
     http := fun _ => Props.ok_response (PList []) |}.

(** The weather service answers without the [main] object. *)
Definition no_main : World :=
  {| environ := environ Props.paris;
     http := fun _ =>
       Props.ok_response
         (PDict [ ("weather", PList [ PDict [ ("description", PStr "clear sky") ] ]) ]) |}.

(** The weather service answers with an empty [weather] array. *)
Definition no_description : World :=
  {| environ := environ Props.paris;
     http := fun _ =>
       Props.ok_response
         (PDict [ ("weather", PList []); ("main", PDict [ ("temp", PInt 18) ]) ]) |}.

(** The timezone service refuses the request without a message. *)
Definition refused : World :=
  {| environ := environ Props.paris;
     http := fun r =>
       if String.eqb (req_url r) "https://api.openweathermap.org/geo/1.0/direct" then
         Props.ok_response (PList [ PDict [ ("lat", PInt 48); ("lon", PInt 2) ] ])
       else Props.ok_response (PDict [ ("status", PStr "FAILED") ]) |}.

(** 18.5 as a binary64 float. *)
Definition eighteen_and_a_half : spec_float := S754_finite false 37 (-1).

(** The weather service reports a float temperature. *)
Definition float_weather : World :=
  {| environ := environ Props.paris;
     http := fun _ =>
       Props.ok_response
         (PDict [ ("weather", PList [ PDict [ ("description", PStr "mist") ] ]);
                  ("main", PDict [ ("temp", PFloat eighteen_and_a_half) ]) ]) |}.

(** A session whose standard input is closed: every [input] raises
    [EOFError]. *)
Definition closed_input (i : nat) : Cli.Turn :=
  {| Cli.entered := Raise (Exn EOFError "EOF when reading a line");
     Cli.ran := Raise (Exn EOFError "EOF when reading a line") |}.

(** A task on the command line. *)
Definition single_task : Cli.Args :=
  {| Cli.task := Some "What's the weather in Paris?"; Cli.config := None;
     Cli.log_level := "INFO"; Cli.tool := None;
     Cli.list_tools := false; Cli.output := Cli.text |}.

End Traces.

(* ===================================================================== *)
(** * Theorems *)
(* ===================================================================== *)

(** ** Facts about substring search *)

Module TextFacts.
Import Text.

Lemma append_cons (a : ascii) (p s : string) :
  String a p +:+ s = String a (p +:+ s).
Proof. reflexivity. Qed.

Lemma append_nil_l (s : string) : "" +:+ s = s.
Proof. reflexivity. Qed.

Lemma starts_with_spec p s :
  starts_with p s = true <-> exists post, s = p +:+ post.
Proof.
  revert s. induction p as [|a p IH]; intros s; simpl.
  - split; [intros _; now exists s | reflexivity].
  - destruct s as [|b s].
    + split; [discriminate | intros [post H]; discriminate].
    + destruct (Ascii.eqb_spec a b) as [->|Hne].
      * rewrite IH. split; intros [post H]; exists post.
        -- now rewrite append_cons, H.
        -- rewrite append_cons in H. congruence.
      * split; [discriminate | intros [post H]; rewrite append_cons in H; congruence].
Qed.

Lemma containsb_spec sub s : containsb sub s = true <-> contains sub s.
Proof.
  unfold contains. induction s as [|b s IH]; simpl.
  - rewrite orb_false_r, starts_with_spec. split.
    + intros [post H]. now exists "", post.
    + intros [pre [post H]]. destruct pre; [now exists post | discriminate].
  - rewrite orb_true_iff, starts_with_spec, IH. split.
    + intros [[post H] | [pre [post H]]].
      * now exists "", post.
      * exists (String b pre), post. now rewrite append_cons, H.
    + intros [pre [post H]]. destruct pre as [|c pre].
      * left. now exists post.
      * right. rewrite append_cons in H. inversion H. now exists pre, post.
Qed.

Lemma contains_dec sub s : {contains sub s} + {~ contains sub s}.
Proof.
  destruct (containsb sub s) eqn:E.
  - left. now apply containsb_spec.
  - right. intros H. apply containsb_spec in H. congruence.
Qed.

Lemma append_assoc (a b c : string) : (a +:+ b) +:+ c = a +:+ (b +:+ c).
Proof. induction a; rewrite ?append_cons, ?append_nil_l; congruence. Qed.

Lemma append_nil_r (a : string) : a +:+ "" = a.
Proof. induction a; rewrite ?append_cons, ?append_nil_l; congruence. Qed.

Lemma contains_refl s : contains s s.
Proof. exists "", "". now rewrite append_nil_l, append_nil_r. Qed.

Lemma contains_app_l sub a b : contains sub a -> contains sub (a +:+ b).
Proof.
  intros [pre [post ->]]. exists pre, (post +:+ b).
  now rewrite !append_assoc.
Qed.

Lemma contains_app_r sub a b : contains sub b -> contains sub (a +:+ b).
Proof.
  intros [pre [post ->]]. exists (a +:+ pre), post.
  now rewrite !append_assoc.
Qed.

End TextFacts.

(** ** The tool functions of agent.py *)

Module AgentFacts.
Import Text TextFacts Py Agent Props.

(** *** Rules for [ensures], one per construct of the tool functions *)

Lemma ensures_ret {A} w (a : A) (Q : A -> Prop) : Q a -> ensures w (ret a) Q.
Proof. intros HQ log b log' H. unfold ret in H. now inversion H; subst. Qed.

Lemma ensures_bind {A B} w (c : Eff A) (k : A -> Eff B) (P : A -> Prop) (Q : B -> Prop) :
  ensures w c P -> (forall a, P a -> ensures w (k a) Q) -> ensures w (bind c k) Q.
Proof.
  intros Hc Hk log b log' H. unfold bind in H.
  destruct (c w log) as [[a|e] log1] eqn:E; [|discriminate].
  exact (Hk a (Hc _ _ _ E) _ _ _ H).
Qed.

Lemma ensures_bind_environ {B} w name (k : option string -> Eff B) Q :
  ensures w (k (environ w !! name)) Q -> ensures w (bind (environ_get name) k) Q.
Proof. intros Hk log b log' H. exact (Hk _ _ _ H). Qed.

Lemma ensures_bind_lift {A B} w (r : result A) (k : A -> Eff B) Q :
  (forall a, r = Ok a -> ensures w (k a) Q) -> ensures w (bind (lift r) k) Q.
Proof.
  intros Hk log b log' H. unfold bind, lift in H.
  destruct r as [a|e]; [|discriminate]. exact (Hk a eq_refl _ _ _ H).
Qed.

Lemma ensures_bind_get {B} w url params (k : Response -> Eff B) Q :
  (forall resp, http w {| req_url := url; req_params := params |} = Ok resp ->
                ensures w (k resp) Q) ->
  ensures w (bind (requests_get url params) k) Q.
Proof.
  intros Hk log b log' H. unfold bind, requests_get in H.
  destruct (http w _) as [resp|e] eqn:E; [|discriminate].
  exact (Hk resp eq_refl _ _ _ H).
Qed.

Lemma ensures_bind_status {B} w resp (k : unit -> Eff B) Q :
  (status_error resp = None -> ensures w (k tt) Q) ->
  ensures w (bind (raise_for_status resp) k) Q.
Proof.
  intros Hk log b log' H. unfold bind, raise_for_status in H.
  destruct (status_error resp) as [e|]; [discriminate|].
  exact (Hk eq_refl _ _ _ H).
Qed.

Lemma ensures_bind_json {B} w resp (k : pyval -> Eff B) Q :
  (forall data, json_body resp = Ok data -> ensures w (k data) Q) ->
  ensures w (bind (json resp) k) Q.
Proof. unfold json. apply ensures_bind_lift. Qed.

Lemma ensures_try_except {A} w (c : Eff A) h (Q : A -> Prop) :
  ensures w c Q ->
  (forall e k, h e = Some k -> ensures w k Q) ->
  ensures w (try_except c h) Q.
Proof.
  intros Hc Hh log a log' H. unfold try_except in H.
  destruct (c w log) as [[b|e] log1] eqn:E.
  - inversion H; subst. exact (Hc _ _ _ E).
  - destruct (h e) as [k|] eqn:Eh; [|discriminate].
    exact (Hh e k Eh _ _ _ H).
Qed.

(** Walks a tool function down to its [return] statements and to the
    bodies of its [except] clauses. *)
Ltac walk :=
  repeat first
    [ apply ensures_ret
    | apply ensures_bind_environ
    | apply ensures_bind_get; intros ? ?
    | apply ensures_bind_status; intros ?
    | apply ensures_bind_json; intros ? ?
    | apply ensures_bind_lift; intros ? ?
    | apply ensures_try_except; [ | intros ? ? ? ]
    | match goal with
      | |- ensures _ (if ?b then _ else _) _ => destruct b eqn:?
      end ].

(** Splits the body of an [except] chain into its clauses. *)
Ltac clauses :=
  match goal with
  | H : (if is_RequestException (exn_cls ?e) then _ else _) = Some _ |- _ =>
      destruct (is_RequestException (exn_cls e)) eqn:?;
      [ | destruct (exn_cls e) eqn:?; try discriminate H ];
      inversion H; subst; clear H; apply ensures_ret
  end.

Lemma error_well_formed msg :
  well_formed {[ "status" := "error"; "error_message" := msg ]}.
Proof. right. split; [|split]; [|eexists|]; reflexivity. Qed.

Lemma success_well_formed text :
  well_formed {[ "status" := "success"; "report" := text ]}.
Proof. left. split; [|split]; [|eexists|]; reflexivity. Qed.

Create HintDb envelope.
#[local] Hint Resolve error_well_formed success_well_formed : envelope.

Lemma get_weather_well_formed repr city w :
  ensures w (get_weather repr city) well_formed.
Proof. unfold get_weather. walk; try clauses; auto with envelope. Qed.

Lemma get_current_time_well_formed repr city w :
  ensures w (get_current_time repr city) well_formed.
Proof. unfold get_current_time. walk; try clauses; auto with envelope. Qed.

(** C1. Every dictionary that [get_weather] or [get_current_time] returns,
    for every city, environment and behaviour of the network, has status
    success or error, and has exactly one of [report] (with success) and
    [error_message] (with error). *)
Theorem tool_envelope_well_formed repr t city w d log :
  call repr t city w = (Ok d, log) -> well_formed d.
Proof.
  unfold call. destruct t; simpl; intros H.
  - exact (get_weather_well_formed repr city w _ _ _ H).
  - exact (get_current_time_well_formed repr city w _ _ _ H).
Qed.

(** C1, at the Paris sample: the weather tool's success envelope. *)
Lemma tool_envelope_well_formed_witness :
  well_formed
    {[ "status" := "success";
       "report" := "The weather in Paris is clear sky with a temperature of 18.0 degrees Celsius (64.4 degrees Fahrenheit)." ]}.
Proof.
  apply (tool_envelope_well_formed sample_repr GetWeather "Paris" paris _
           [weather_request "Paris" paris]).
  vm_compute. reflexivity.
Defined.

(** *** Missing API keys *)

(** C3. When the API key that a tool requires is unset, the tool returns
    status error with a message containing "API key not found", and its
    request log stays empty: it makes no network call. *)
Theorem missing_key_no_network repr t city w :
  environ w !! required_key t = None ->
  exists msg,
    call repr t city w = (Ok {[ "status" := "error"; "error_message" := msg ]}, [])
    /\ contains "API key not found" msg.
Proof.
  intros H. destruct t; simpl in H;
    unfold call, tool_function, get_weather, get_current_time, bind, environ_get;
    rewrite H; simpl; eexists; (split; [reflexivity|]);
    apply containsb_spec; reflexivity.
Qed.

(** C3, in the world without environment variables. *)
Lemma missing_key_no_network_witness :
  exists msg,
    call sample_repr GetCurrentTime "Paris" bare
    = (Ok {[ "status" := "error"; "error_message" := msg ]}, [])
    /\ contains "API key not found" msg.
Proof. apply (missing_key_no_network sample_repr GetCurrentTime "Paris" bare). reflexivity. Defined.

(** C9 as stated fails: with neither key set, [get_current_time] reports
    the missing timezone key and says nothing about geocoding. *)
Lemma geocoding_message_counterexample :
  environ bare !! "WEATHER_API_KEY" = None
  /\ call sample_repr GetCurrentTime "Paris" bare
     = (Ok {[ "status" := "error";
              "error_message" := "Timezone API key not found in environment variables." ]}, [])
  /\ ~ contains "geocoding" "Timezone API key not found in environment variables.".
Proof.
  split; [reflexivity|]. split; [reflexivity|].
  intros H. apply containsb_spec in H. vm_compute in H. discriminate.
Qed.

(** C9, amended. When WEATHER_API_KEY is unset, [get_current_time] returns
    status error and sends no request, whatever TIMEZONE_API_KEY is; the
    message says that the key is needed for geocoding when TIMEZONE_API_KEY
    is set to a non-empty value, and reports the missing timezone key
    otherwise. *)
Theorem time_needs_weather_key repr city w :
  environ w !! "WEATHER_API_KEY" = None ->
  exists msg,
    call repr GetCurrentTime city w
    = (Ok {[ "status" := "error"; "error_message" := msg ]}, [])
    /\ (missing (environ w !! "TIMEZONE_API_KEY") = false ->
        contains "needed for geocoding" msg)
    /\ (missing (environ w !! "TIMEZONE_API_KEY") = true ->
        msg = "Timezone API key not found in environment variables.").
Proof.
  intros H.
  unfold call, tool_function, get_current_time, bind, environ_get, try_except.
  destruct (missing (environ w !! "TIMEZONE_API_KEY")).
  - eexists. split; [reflexivity|]. split; [discriminate | reflexivity].
  - rewrite H. eexists. split; [reflexivity|]. split; [|discriminate].
    intros _. apply containsb_spec. reflexivity.
Qed.

(** C9 amended, with only the timezone key set. *)
Lemma time_needs_weather_key_witness :
  exists msg,
    call sample_repr GetCurrentTime "Paris" timezone_only
    = (Ok {[ "status" := "error"; "error_message" := msg ]}, [])
    /\ (missing (environ timezone_only !! "TIMEZONE_API_KEY") = false ->
        contains "needed for geocoding" msg)
    /\ (missing (environ timezone_only !! "TIMEZONE_API_KEY") = true ->
        msg = "Timezone API key not found in environment variables.").
Proof. apply (time_needs_weather_key sample_repr "Paris" timezone_only). reflexivity. Defined.

(** *** Error messages *)

(** C4 as stated fails: the message for a missing key does not contain
    the name of the tool. *)
Lemma error_names_tool_counterexample :
  call sample_repr GetWeather "Paris" bare
  = (Ok {[ "status" := "error";
           "error_message" := "Weather API key not found in environment variables." ]}, [])
  /\ ~ contains (tool_name GetWeather) "Weather API key not found in environment variables.".
Proof.
  split; [reflexivity|].
  intros H. apply containsb_spec in H. vm_compute in H. discriminate.
Qed.

(** *** The weather report *)

Lemma round_half_even_nonneg num den : 0 <= num -> 0 < den -> 0 <= round_half_even num den.
Proof.
  intros Hn Hd. unfold round_half_even.
  assert (0 <= num / den) by (apply Z.div_pos; lia).
  destruct (2 * (num mod den) ?= den); [destruct (Z.even _)| |]; lia.
Qed.

Lemma tenths_nonneg m e : 0 <= tenths m e.
Proof.
  unfold tenths. destruct (0 <=? e) eqn:E.
  - apply Z.leb_le in E. assert (0 <= 2 ^ e) by (apply Z.pow_nonneg; lia). nia.
  - apply Z.leb_gt in E. apply round_half_even_nonneg; [lia|].
    apply Z.pow_pos_nonneg; lia.
Qed.

(** The [.1f] text of a finite float has one digit after the point. *)
Lemma one_decimal_finite f : finite f = true -> one_decimal (float_format_1f f).
Proof.
  destruct f as [s|s| |s m e]; try discriminate; intros _.
  - exists s, 0, 0. repeat split; try lia.
  - pose proof (tenths_nonneg m e) as Hn.
    exists s, (tenths m e / 10), (tenths m e mod 10).
    split; [apply Z.div_pos; lia|]. split; [apply Z.mod_pos_bound; lia|].
    reflexivity.
Qed.

(** What [format_1f] produces: one digit after the point, or the name of
    a value that is not finite. *)
Lemma format_1f_shape v s :
  format_1f v = Ok s ->
  one_decimal s \/ s = "nan" \/ s = "inf" \/ s = "-inf".
Proof.
  assert (forall f, one_decimal (float_format_1f f) \/ float_format_1f f = "nan"
                    \/ float_format_1f f = "inf" \/ float_format_1f f = "-inf") as Hf.
  { intros f. destruct (finite f) eqn:E; [left; now apply one_decimal_finite|].
    destruct f as [| [|] | |]; try discriminate; simpl; auto. }
  unfold format_1f, int_to_float. destruct v; try discriminate.
  - intros [= <-]. apply Hf.
  - pose proof (Hf (float_of_Z z)) as Hz.
    destruct (float_of_Z z); cbv [rbind]; try discriminate;
      intros [= <-]; exact Hz.
  - intros [= <-]. apply Hf.
Qed.

Lemma error_shows_temperatures repr city w msg :
  report_shows_temperatures repr city w {[ "status" := "error"; "error_message" := msg ]}.
Proof. intros H. vm_compute in H. discriminate. Qed.

Lemma get_weather_temperatures repr city w :
  ensures w (get_weather repr city) (report_shows_temperatures repr city w).
Proof.
  unfold get_weather. walk; try clauses; try apply error_shows_temperatures.
  intros _. unfold shows_temperatures.
  match goal with
  | Hm : mul_int ?c 9 = Ok ?a, Hd : truediv_int ?a 5 = Ok ?b, Ha : add_int ?b 32 = Ok ?f |- _ =>
      assert (fahrenheit_of c = Ok f) as Hf
        by (unfold fahrenheit_of; rewrite Hm; simpl; rewrite Hd; simpl; exact Ha)
  end.
  do 8 eexists. repeat (split; [eassumption|]). reflexivity.
Qed.

End AgentFacts.

(** ** Tool, registry and dispatcher *)

Module CoreFacts.
Import Text TextFacts Py Props Core.

(** *** Tool.invoke *)

(** C2. [invoke] returns an envelope and nothing else; when the function
    of the tool raises, the envelope is an error whose message is not
    empty and contains the name of the tool (and the text of the
    exception). *)
Theorem invoke_never_raises t arguments w e :
  function t arguments w = Raise e ->
  exists msg,
    invoke t arguments w = Error msg
    /\ msg <> ""
    /\ contains (name t) msg
    /\ contains (exn_str e) msg.
Proof.
  intros H. unfold invoke. rewrite H. eexists. split; [reflexivity|].
  split; [discriminate|]. split.
  - apply contains_app_r, contains_app_l, contains_refl.
  - do 3 apply contains_app_r. apply contains_refl.
Qed.

(** C2, for the weather tool when the service sends an array: the
    [TypeError] that [get_weather] lets through is caught by [invoke]. *)
Lemma invoke_never_raises_witness :
  exists msg,
    invoke (weather_tool sample_repr) (city_arguments "Paris") malformed = Error msg
    /\ msg <> ""
    /\ contains "get_weather" msg
    /\ contains "list indices must be integers or slices, not str" msg.
Proof.
  apply (invoke_never_raises (weather_tool sample_repr) (city_arguments "Paris") malformed
           (Exn TypeError "list indices must be integers or slices, not str")).
  vm_compute. reflexivity.
Defined.

(** *** Registry *)

Lemma registered_tools p r t :
  tools (registered p r t) = tools r
  \/ tools (registered p r t) = <[name t := t]> (tools r).
Proof.
  unfold registered, register.
  destruct (tools r !! name t); [destruct p|]; simpl; auto.
Qed.

(** A registration under another name leaves an entry as it was. *)
Lemma registered_other p r t n :
  name t <> n -> tools (registered p r t) !! n = tools r !! n.
Proof.
  intros Hne. destruct (registered_tools p r t) as [-> | ->]; [reflexivity|].
  now apply lookup_insert_ne.
Qed.

(** Under the fail-loud policy no registration changes an entry. *)
Lemma registered_fail_loud r t n u :
  tools r !! n = Some u -> tools (registered FailLoud r t) !! n = Some u.
Proof.
  intros H. unfold registered, register.
  destruct (tools r !! name t) eqn:E; simpl; [exact H|].
  rewrite lookup_insert_ne; [exact H|]. congruence.
Qed.

Lemma populate_keeps p r ts n u :
  tools r !! n = Some u ->
  (p = Overwrite -> Forall (fun t => name t <> n) ts) ->
  tools (populate p r ts) !! n = Some u.
Proof.
  revert r. induction ts as [|t ts IH]; intros r H Hp; simpl; [exact H|].
  apply IH.
  - destruct p.
    + now apply registered_fail_loud.
    + specialize (Hp eq_refl). inversion Hp; subst.
      now rewrite registered_other.
  - intros ->. specialize (Hp eq_refl). now inversion Hp.
Qed.

Lemma register_tools p t r r' :
  register p t r = inl r' -> tools r' !! name t = Some t.
Proof.
  unfold register. intros H.
  destruct (tools r !! name t); [destruct p|]; inversion H; subst; simpl;
    apply lookup_insert_eq.
Qed.

(** C5. A tool whose registration was accepted is what [lookup] returns
    under its name from then on, through any later registration calls
    (under the overwrite policy, as long as none of them replaces it). *)
Theorem lookup_registered p before t after :
  accepts p (populate p empty before) t = true ->
  (p = Overwrite -> Forall (fun u => name u <> name t) after) ->
  lookup (name t) (populate p empty (before ++ t :: after)) = inl t.
Proof.
  intros Hreg Hafter. unfold lookup, populate.
  rewrite foldl_app. simpl. fold (populate p empty before).
  unfold accepts in Hreg. unfold registered at 2.
  destruct (register p t (populate p empty before)) as [r|] eqn:E; [|discriminate].
  fold (populate p r after).
  rewrite (populate_keeps p r after (name t) t); [reflexivity| |exact Hafter].
  exact (register_tools _ _ _ _ E).
Qed.

(** C5, for the time tool registered between two others. *)
Lemma lookup_registered_witness :
  lookup "get_current_time"
    (populate FailLoud empty
       [ weather_tool sample_repr; time_tool sample_repr;
         constant_tool "echo" (Success "hello") ])
  = inl (time_tool sample_repr).
Proof.
  apply (lookup_registered FailLoud [weather_tool sample_repr] (time_tool sample_repr)
           [constant_tool "echo" (Success "hello")]).
  - vm_compute. reflexivity.
  - discriminate.
Defined.

Lemma populate_absent p r ts n :
  tools r !! n = None -> n ∉ name <$> ts -> tools (populate p r ts) !! n = None.
Proof.
  revert r. induction ts as [|t ts IH]; intros r H Hn; simpl; [exact H|].
  rewrite fmap_cons, not_elem_of_cons in Hn. destruct Hn as [Hne Hn].
  apply IH; [|exact Hn]. rewrite registered_other; [exact H | congruence].
Qed.

(** C6. The lookup of a name that no registration call has carried fails
    with [ToolNotFoundError]. *)
Theorem lookup_unregistered p ts n :
  n ∉ name <$> ts ->
  lookup n (populate p empty ts) = inr (ToolNotFoundError n).
Proof.
  intros Hn. unfold lookup.
  now rewrite (populate_absent p empty ts n (lookup_empty n) Hn).
Qed.

(** C6, for a name next to the two tools of the agent. *)
Lemma lookup_unregistered_witness :
  lookup "get_news" (populate FailLoud empty [weather_tool sample_repr; time_tool sample_repr])
  = inr (ToolNotFoundError "get_news").
Proof.
  apply (lookup_unregistered FailLoud [weather_tool sample_repr; time_tool sample_repr]).
  simpl. rewrite !not_elem_of_cons. repeat split; try discriminate. apply not_elem_of_nil.
Defined.

(** *** Dispatcher *)

Lemma concat_contains_head sep m rest : contains m (String.concat sep (m :: rest)).
Proof.
  destruct rest as [|m' rest]; simpl.
  - apply contains_refl.
  - apply contains_app_l, contains_refl.
Qed.

Lemma concat_contains sep m l : m ∈ l -> contains m (String.concat sep l).
Proof.
  induction l as [|x l IH]; intros H; [now apply elem_of_nil in H|].
  apply elem_of_cons in H as [-> | H]; [apply concat_contains_head|].
  destruct l as [|y l]; [now apply elem_of_nil in H|].
  change (String.concat sep (x :: y :: l)) with (x +:+ sep +:+ String.concat sep (y :: l)).
  do 2 apply contains_app_r. now apply IH.
Qed.

Lemma all_succeeded_no_error es :
  Forall (fun e => status_of e = success) es -> error_messages es = [].
Proof.
  induction 1 as [|e es He _ IH]; [reflexivity|].
  destruct e; [exact IH | discriminate].
Qed.

Lemma aggregate_success pol tsk direct p :
  status (aggregate pol tsk direct p) = success
  <-> error_messages (envelopes p) = [] /\ missing p = [].
Proof.
  unfold aggregate.
  destruct (error_messages (envelopes p)), (missing p); simpl;
    split; try tauto; try discriminate; intros [? ?]; discriminate.
Qed.

Lemma aggregate_failure pol tsk direct p m :
  head (error_messages (envelopes p)) = Some m ->
  status (aggregate pol tsk direct p) = error
  /\ contains m (result (aggregate pol tsk direct p)).
Proof.
  unfold aggregate. destruct (error_messages (envelopes p)) as [|m' failed]; [discriminate|].
  intros [= ->]. split; [reflexivity|]. simpl.
  destruct (surface_all pol); apply concat_contains_head.
Qed.

Lemma aggregate_all_failures pol tsk direct p m :
  surface_all pol = true ->
  m ∈ error_messages (envelopes p) ->
  contains m (result (aggregate pol tsk direct p)).
Proof.
  intros Hall Hm. unfold aggregate.
  destruct (error_messages (envelopes p)) as [|m' failed] eqn:E;
    [now apply elem_of_nil in Hm|].
  simpl. rewrite Hall. apply concat_contains. apply elem_of_app. now left.
Qed.

Lemma aggregate_missing pol tsk direct p :
  missing p <> [] -> status (aggregate pol tsk direct p) = error.
Proof.
  intros H. unfold aggregate.
  destruct (error_messages (envelopes p)), (missing p); try reflexivity. congruence.
Qed.

(** The envelopes of a run are what [invoke] returned for the tools
    used, in order, each found in the registry under its selected name. *)
Lemma invoke_each_invoked pol r w all sel acc :
  (forall x, x ∈ sel -> x ∈ all) ->
  Forall2 (invoked r w all) (used acc) (envelopes acc) ->
  Forall2 (invoked r w all) (used (invoke_each pol r w sel acc))
          (envelopes (invoke_each pol r w sel acc)).
Proof.
  revert acc. induction sel as [|[n arguments] sel IH]; intros acc Hsub Hacc; simpl;
    [exact Hacc|].
  assert (forall x, x ∈ sel -> x ∈ all) as Hsub'
    by (intros x Hx; apply Hsub, elem_of_cons; now right).
  destruct (lookup n r) as [t|err] eqn:E.
  - assert (Forall2 (invoked r w all) (used acc ++ [n])
              (envelopes acc ++ [invoke t arguments w])) as Hacc'.
    { apply Forall2_app; [exact Hacc|]. constructor; [|constructor].
      exists t, arguments. split; [apply Hsub, elem_of_cons; now left|]. now split. }
    destruct (invoke t arguments w) eqn:Ei; [now apply IH|].
    destruct (abort_on_failure pol); [exact Hacc' | now apply IH].
  - destruct (abort_on_missing pol); [exact Hacc | now apply IH].
Qed.

Lemma run_tools_used pol r w sel tsk :
  tools_used (run pol r w sel tsk) = used (invoke_each pol r w (chosen sel) start)
  /\ Forall2 (invoked r w (chosen sel))
       (used (invoke_each pol r w (chosen sel) start))
       (envelopes (invoke_each pol r w (chosen sel) start)).
Proof.
  split.
  - unfold run, aggregate.
    now destruct (error_messages _), (missing _).
  - apply invoke_each_invoked; [auto | constructor].
Qed.

End CoreFacts.

(** ** The command-line entry point of cli.py *)

Module CliFacts.
Import Text TextFacts Py Cli Turns.

(** *** [create_agent] copies the registry *)

Lemma consistent_empty : consistent Core.empty.
Proof.
  split; [constructor|]. split.
  - intros n. simpl. rewrite lookup_empty. split.
    + intros H. now apply elem_of_nil in H.
    + intros [x H]. discriminate.
  - intros n t H. simpl in H. now rewrite lookup_empty in H.
Qed.

Lemma consistent_registered p r t :
  consistent r -> consistent (Core.registered p r t).
Proof.
  intros H. pose proof H as (Hnd & Hdom & Hname).
  unfold Core.registered, Core.register.
  destruct (Core.tools r !! Core.name t) as [u|] eqn:E.
  - destruct p; [exact H|]. simpl. split; [exact Hnd|]. split.
    + intros n. simpl. destruct (decide (Core.name t = n)) as [<-|Hne].
      * rewrite lookup_insert_eq, Hdom, E. split; eauto.
      * now rewrite lookup_insert_ne.
    + intros n u'. simpl. destruct (decide (Core.name t = n)) as [<-|Hne].
      * rewrite lookup_insert_eq. now intros [= <-].
      * rewrite lookup_insert_ne by done. apply Hname.
  - simpl. split; [|split].
    + apply NoDup_app. split; [exact Hnd|]. split; [|apply NoDup_singleton].
      intros n Hn Hn'. apply list_elem_of_singleton in Hn' as ->.
      apply Hdom in Hn as [x Hx]. congruence.
    + intros n. simpl. rewrite elem_of_app, list_elem_of_singleton.
      destruct (decide (Core.name t = n)) as [<-|Hne].
      * rewrite lookup_insert_eq. split; eauto.
      * rewrite lookup_insert_ne by done. rewrite <- Hdom. split; [|tauto].
        intros [Hn|Hn]; [exact Hn | congruence].
    + intros n u'. simpl. destruct (decide (Core.name t = n)) as [<-|Hne].
      * rewrite lookup_insert_eq. now intros [= <-].
      * rewrite lookup_insert_ne by done. apply Hname.
Qed.

Lemma consistent_populate p r ts : consistent r -> consistent (Core.populate p r ts).
Proof.
  revert r. induction ts as [|t ts IH]; intros r H; simpl; [exact H|].
  apply IH. now apply consistent_registered.
Qed.

Lemma rebuilt_tool (t : Core.Tool) n :
  Core.name t = n ->
  {| Core.name := n; Core.function := Core.function t;
     Core.description := Core.description t |} = t.
Proof. intros <-. now destruct t. Qed.

Lemma add_tools_copies p registry listed agent :
  (forall n t, Core.tools registry !! n = Some t -> Core.name t = n) ->
  NoDup listed ->
  (forall n, n ∈ listed -> is_Some (Core.tools registry !! n)) ->
  (forall n, n ∈ listed -> Core.tools agent !! n = None) ->
  exists agent',
    add_tools p registry listed agent = inl agent'
    /\ Core.names agent' = (Core.names agent ++ listed)%list
    /\ (forall n, Core.tools agent' !! n
                  = if decide (n ∈ listed) then Core.tools registry !! n
                    else Core.tools agent !! n).
Proof.
  intros Hname. revert agent.
  induction listed as [|m listed IH]; intros agent Hnd Hin Hfree; simpl.
  - exists agent. split; [reflexivity|]. split; [now rewrite app_nil_r|].
    intros n. destruct (decide (n ∈ [])) as [H|_]; [now apply elem_of_nil in H | reflexivity].
  - apply NoDup_cons in Hnd as [Hm Hnd].
    destruct (Hin m) as [t Ht]; [apply elem_of_cons; now left|].
    unfold Core.lookup. rewrite Ht, (rebuilt_tool t m (Hname _ _ Ht)).
    unfold Core.register. rewrite (Hname _ _ Ht).
    rewrite (Hfree m) by (apply elem_of_cons; now left).
    destruct (IH {| Core.tools := <[m:=t]> (Core.tools agent);
                    Core.names := (Core.names agent ++ [m])%list |})
      as (agent' & Hrun & Hnames & Htools); [exact Hnd | | |].
    + intros n Hn. apply Hin, elem_of_cons. now right.
    + intros n Hn. simpl. rewrite lookup_insert_ne by (intros ->; contradiction).
      apply Hfree, elem_of_cons. now right.
    + exists agent'. split; [exact Hrun|]. split.
      * rewrite Hnames. simpl. now rewrite <- app_assoc.
      * intros n. rewrite Htools. simpl.
        destruct (decide (n ∈ listed)) as [Hn|Hn].
        -- rewrite decide_True; [reflexivity | apply elem_of_cons; now right].
        -- destruct (decide (m = n)) as [<-|Hne].
           ++ rewrite lookup_insert_eq, decide_True; [now rewrite Ht | apply elem_of_cons; now left].
           ++ rewrite lookup_insert_ne by done.
              rewrite decide_False; [reflexivity|].
              intros H. apply elem_of_cons in H as [->|H]; [now apply Hne | contradiction].
Qed.

(** On a registry built by registration, [create_agent] succeeds and the
    agent's catalogue is the registry: every [get_tool] of a listed name
    finds the tool that was registered under it. *)
Lemma create_agent_copies p r : consistent r -> create_agent p r = inl r.
Proof.
  intros (Hnd & Hdom & Hname). unfold create_agent, Core.list_tools.
  destruct (add_tools_copies p r (Core.names r) Core.empty Hname Hnd)
    as (agent & Hrun & Hnames & Htools).
  - intros n Hn. now apply Hdom.
  - intros n _. apply lookup_empty.
  - rewrite Hrun. f_equal. destruct agent as [tools names], r as [rtools rnames].
    simpl in *. subst names. f_equal. apply map_eq. intros n.
    rewrite Htools. destruct (decide (n ∈ rnames)) as [Hn|Hn]; [reflexivity|].
    rewrite lookup_empty. symmetry. apply eq_None_not_Some. now rewrite <- Hdom.
Qed.

(** *** The loop body *)

Lemma is_quit_spec line :
  is_quit line = true <-> lower line = "exit" \/ lower line = "quit".
Proof. unfold is_quit. now rewrite orb_true_iff, !String.eqb_eq. Qed.

Lemma handler_break e : snd (handler e) = Break <-> exn_cls e = KeyboardInterrupt.
Proof. unfold handler. destruct (exn_cls e); simpl; split; congruence. Qed.

Lemma handler_continue e : snd (handler e) = Continue <-> is_Exception (exn_cls e) = true.
Proof. unfold handler. destruct (exn_cls e); simpl; split; congruence. Qed.

Lemma handler_propagate e e' :
  snd (handler e) = Propagate e' <->
  e' = e /\ exn_cls e <> KeyboardInterrupt /\ is_Exception (exn_cls e) = false.
Proof.
  unfold handler. split.
  - destruct (exn_cls e) eqn:E; simpl; try discriminate.
    intros [= ->]. repeat split; discriminate.
  - intros (-> & Hk & Hx). destruct (exn_cls e); simpl in *;
      first [discriminate Hx | now destruct Hk | reflexivity].
Qed.

(** The control decision of a turn, from its line and from the exception
    raised in it. *)
Lemma iteration_control c fmt t :
  snd (iteration c fmt t)
  = match entered t with
    | Ok line =>
        if is_quit line then Break
        else match raised t with
             | Some e => snd (handler e)
             | None => Continue
             end
    | Raise e => snd (handler e)
    end.
Proof.
  unfold iteration, raised. destruct (entered t) as [line|e]; [|reflexivity].
  destruct (is_quit line); [reflexivity|]. simpl.
  destruct (String.eqb (lower line) "tools"); [reflexivity|].
  now destruct (ran t).
Qed.

Lemma quits_spec t :
  quits t <-> exists line, entered t = Ok line /\ is_quit line = true.
Proof. unfold quits. split; intros (line & H & Hq); exists line; now rewrite is_quit_spec in *. Qed.

Lemma raised_quits t : quits t -> raised t = None.
Proof.
  intros H. apply quits_spec in H as (line & H & Hq).
  unfold raised. now rewrite H, Hq.
Qed.

Lemma iteration_break c fmt t :
  snd (iteration c fmt t) = Break <-> quits t \/ interrupted t.
Proof.
  rewrite iteration_control, quits_spec. unfold interrupted, raised.
  destruct (entered t) as [line|e].
  - destruct (is_quit line) eqn:Hq; simpl.
    + split; [|reflexivity]. intros _. left. now exists line.
    + destruct (String.eqb (lower line) "tools"); [|destruct (ran t) as [r|e]].
      * split; [discriminate|]. intros [(l & [= <-] & H) | (e & H & _)]; congruence.
      * split; [discriminate|]. intros [(l & [= <-] & H) | (e & H & _)]; congruence.
      * rewrite handler_break. split.
        -- intros H. right. now exists e.
        -- intros [(l & [= <-] & H) | (e' & [= <-] & H)]; congruence.
  - rewrite handler_break. split.
    + intros H. right. now exists e.
    + intros [(l & H & _) | (e' & [= <-] & H)]; congruence.
Qed.

Lemma iteration_propagate c fmt t e :
  snd (iteration c fmt t) = Propagate e ->
  raised t = Some e /\ exn_cls e <> KeyboardInterrupt /\ is_Exception (exn_cls e) = false.
Proof.
  rewrite iteration_control. unfold raised.
  destruct (entered t) as [line|e0].
  - destruct (is_quit line); [discriminate|]. simpl.
    destruct (String.eqb (lower line) "tools"); [discriminate|].
    destruct (ran t) as [r|e0]; [discriminate|].
    rewrite handler_propagate. now intros (-> & ? & ?).
  - rewrite handler_propagate. now intros (-> & ? & ?).
Qed.

Lemma iteration_continue c fmt t :
  snd (iteration c fmt t) = Continue <-> stays t.
Proof.
  unfold stays. split.
  - intros H. split; [|split].
    + intros Hq. assert (snd (iteration c fmt t) = Break) by (apply iteration_break; now left).
      congruence.
    + intros Hi. assert (snd (iteration c fmt t) = Break) by (apply iteration_break; now right).
      congruence.
    + intros (e & He & Hk & Hx). rewrite iteration_control in H.
      unfold raised in He, H. destruct (entered t) as [line|e0].
      * destruct (is_quit line); [discriminate|]. simpl in He, H.
        destruct (String.eqb (lower line) "tools"); [discriminate|].
        destruct (ran t) as [r|e1]; [discriminate|]. injection He as ->.
        apply handler_continue in H. congruence.
      * injection He as ->. apply handler_continue in H. congruence.
  - intros (Hq & Hi & Hx).
    destruct (snd (iteration c fmt t)) as [| |e] eqn:E; [reflexivity| |].
    + apply iteration_break in E as [?|?]; contradiction.
    + apply iteration_propagate in E as (? & ? & ?). exfalso. apply Hx. now exists e.
Qed.

(** A line that is neither [exit] nor [quit], with no exception in the
    turn, is processed: the registry is listed for [tools], the agent's
    result is displayed for anything else, and the loop goes on. *)
Lemma iteration_processes c fmt t line r :
  entered t = Ok line -> ~ quits t -> ran t = Ok r ->
  iteration c fmt t
  = (if String.eqb (lower line) "tools"
     then listing (Core.get_tool_descriptions (registry c))
     else display c fmt r,
     Continue).
Proof.
  intros He Hq Hr. unfold iteration. rewrite He, Hr.
  destruct (is_quit line) eqn:E.
  - exfalso. apply Hq, quits_spec. now exists line.
  - now destruct (String.eqb (lower line) "tools").
Qed.

(** *** The loop *)

Lemma loop_step c fmt session fuel i :
  snd (loop c fmt session (S fuel) i)
  = match snd (iteration c fmt (session i)) with
    | Continue => snd (loop c fmt session fuel (S i))
    | Break => Returns
    | Propagate e => Raises e
    end.
Proof.
  simpl. destruct (iteration c fmt (session i)) as [out [| |e]]; simpl; try reflexivity.
  now destruct (loop c fmt session fuel (S i)).
Qed.

(** The loop returns exactly when, within the turns the fuel covers, a
    turn breaks and every turn before it continued. *)
Lemma loop_returns c fmt session fuel i :
  snd (loop c fmt session fuel i) = Returns <->
  exists k, (k < fuel)%nat
            /\ snd (iteration c fmt (session (i + k)%nat)) = Break
            /\ forall j, (j < k)%nat -> snd (iteration c fmt (session (i + j)%nat)) = Continue.
Proof.
  revert i. induction fuel as [|fuel IH]; intros i.
  - simpl. split; [discriminate|]. intros (k & Hk & _). lia.
  - rewrite loop_step. destruct (snd (iteration c fmt (session i))) as [| |e] eqn:E.
    + rewrite IH. split.
      * intros (k & Hk & Hb & Hc). exists (S k). split; [lia|]. split.
        -- now replace (i + S k)%nat with (S i + k)%nat by lia.
        -- intros [|j] Hj; [now rewrite Nat.add_0_r|].
           replace (i + S j)%nat with (S i + j)%nat by lia. apply Hc. lia.
      * intros ([|k] & Hk & Hb & Hc).
        -- rewrite Nat.add_0_r in Hb. congruence.
        -- exists k. split; [lia|]. split.
           ++ now replace (S i + k)%nat with (i + S k)%nat by lia.
           ++ intros j Hj. replace (S i + j)%nat with (i + S j)%nat by lia. apply Hc. lia.
    + split; [|reflexivity]. intros _. exists 0%nat. split; [lia|]. split.
      * now rewrite Nat.add_0_r.
      * intros j Hj. lia.
    + split; [discriminate|]. intros ([|k] & Hk & Hb & Hc).
      * rewrite Nat.add_0_r in Hb. congruence.
      * specialize (Hc 0%nat ltac:(lia)). rewrite Nat.add_0_r in Hc. congruence.
Qed.

(** While every turn is processed the loop does not end. *)
Lemma loop_runs c fmt session fuel i :
  (forall k, stays (session k)) -> snd (loop c fmt session fuel i) = Runs.
Proof.
  intros H. revert i. induction fuel as [|fuel IH]; intros i; [reflexivity|].
  rewrite loop_step. now rewrite (proj2 (iteration_continue c fmt (session i)) (H i)).
Qed.

(** *** [main] *)

Lemma main_interactive args c session fuel :
  given (task args) = false ->
  list_tools args = false ->
  starts args c ->
  main args c session fuel
  = ((banner ++ fst (loop c (output args) session fuel 0))%list,
     snd (loop c (output args) session fuel 0)).
Proof.
  intros Htask Hlist (Hconfig & p & ts & Hreg). unfold main.
  assert ((if given (config args) then load_config c (default "" (config args)) else None)
          = None) as ->.
  { destruct (given (config args)); [now apply Hconfig | reflexivity]. }
  rewrite Hlist, Htask.
  rewrite create_agent_copies
    by (rewrite Hreg; apply consistent_populate, consistent_empty).
  now destruct (loop c (output args) session fuel 0).
Qed.

(** C8 as stated fails: with no task argument and [--list-tools], [main]
    prints the listing and returns; it prints no banner and reads no
    line, although no line of the session is [exit] or [quit] and no
    interrupt occurs. *)
Lemma list_tools_counterexample :
  task listing_only = None
  /\ (forall k, ~ quits (endless_session k) /\ ~ interrupted (endless_session k))
  /\ main listing_only sample_collaborators endless_session 3
     = ([ "Available tools:";
          "  - get_weather: Retrieves the current weather report for a specified city.";
          "  - get_current_time: Returns the current time in a specified city." ],
        Returns).
Proof.
  split; [reflexivity|]. split; [|vm_compute; reflexivity].
  intros k. split.
  - intros (line & [= <-] & [H|H]); vm_compute in H; discriminate.
  - intros (e & H & _). vm_compute in H. discriminate.
Qed.

(** C8, amended. Started with no task (absent or empty) and without
    [--list-tools], once start-up has succeeded, [main] enters the
    interactive loop. It returns from the loop exactly at the first turn
    whose line, lowercased, is [exit] or [quit], or in which a
    [KeyboardInterrupt] is raised, every turn before it having been
    processed. A turn whose line is neither, and in which nothing is
    raised, is processed (the listing for [tools], the agent's result for
    any other line) and the loop continues. *)
Theorem interactive_loop args c session fuel :
  given (task args) = false ->
  list_tools args = false ->
  starts args c ->
  main args c session fuel
  = ((banner ++ fst (loop c (output args) session fuel 0))%list,
     snd (loop c (output args) session fuel 0))
  /\ (snd (main args c session fuel) = Returns <->
      exists k, (k < fuel)%nat
                /\ (quits (session k) \/ interrupted (session k))
                /\ forall j, (j < k)%nat -> stays (session j))
  /\ (forall t line r,
        entered t = Ok line -> ~ quits t -> ran t = Ok r ->
        iteration c (output args) t
        = (if String.eqb (lower line) "tools"
           then listing (Core.get_tool_descriptions (registry c))
           else display c (output args) r,
           Continue)).
Proof.
  intros Htask Hlist Hstart.
  pose proof (main_interactive args c session fuel Htask Hlist Hstart) as Hmain.
  split; [exact Hmain|]. split.
  - rewrite Hmain. simpl. rewrite loop_returns. simpl.
    split; intros (k & Hk & Hb & Hc); exists k; (split; [exact Hk|]); split.
    + now apply iteration_break in Hb.
    + intros j Hj. apply (iteration_continue c (output args)). now apply Hc.
    + now apply iteration_break.
    + intros j Hj. apply iteration_continue. now apply Hc.
  - intros t line r. apply iteration_processes.
Qed.

(** C8 amended, for a session of a task, the listing and [QUIT]. *)
Lemma interactive_loop_witness :
  main interactive sample_collaborators short_session 10
  = ([ "Multi Tool Agent Interactive Mode";
       "Type 'exit' or 'quit' to exit";
       "Type 'tools' to list available tools";
       "Status: success";
       "Tools used: get_weather";
       "Result: clear sky, 18.0C";
       "Available tools:";
       "  - get_weather: Retrieves the current weather report for a specified city.";
       "  - get_current_time: Returns the current time in a specified city." ],
     Returns).
Proof.
  rewrite (proj1 (interactive_loop interactive sample_collaborators short_session 10
                    eq_refl eq_refl
                    (conj (fun H : given (config interactive) = true =>
                             False_ind _ (diff_false_true H))
                          (ex_intro _ Core.FailLoud (ex_intro _ _ eq_refl))))).
  vm_compute. reflexivity.
Defined.

(** While every line is a task that the agent answers, [main] stays in
    the loop. *)
Lemma main_runs args c session fuel :
  given (task args) = false -> list_tools args = false -> starts args c ->
  (forall k, stays (session k)) ->
  snd (main args c session fuel) = Runs.
Proof.
  intros Htask Hlist Hstart Hstay.
  rewrite (main_interactive args c session fuel Htask Hlist Hstart). simpl.
  now apply loop_runs.
Qed.

End CliFacts.

(** ** Requests sent and exceptions let through by the tool functions *)

Module TraceFacts.
Import Text TextFacts Py Agent Props Traces.

(** *** Rules for [performs], one per construct of the tool functions *)

Lemma performs_ret {A} w (a : A) Q : Q (Ok a) [] -> performs w (ret a) Q.
Proof. intros H log. exists []. simpl. now rewrite app_nil_r. Qed.

Lemma performs_bind_environ {B} w name (k : option string -> Eff B) Q :
  performs w (k (environ w !! name)) Q -> performs w (bind (environ_get name) k) Q.
Proof. intros H log. exact (H log). Qed.

Lemma performs_bind_lift {A B} w (r : result A) (k : A -> Eff B) Q :
  (forall a, r = Ok a -> performs w (k a) Q) ->
  (forall e, r = Raise e -> Q (Raise e) []) ->
  performs w (bind (lift r) k) Q.
Proof.
  intros Hk He log. unfold bind, lift. destruct r as [a|e].
  - exact (Hk a eq_refl log).
  - exists []. simpl. rewrite app_nil_r. split; [reflexivity | now apply He].
Qed.

Lemma performs_bind_get {B} w url params (k : Response -> Eff B) Q :
  (forall resp, http w {| req_url := url; req_params := params |} = Ok resp ->
     performs w (k resp)
       (fun r sent => Q r ({| req_url := url; req_params := params |} :: sent))) ->
  (forall e, http w {| req_url := url; req_params := params |} = Raise e ->
     Q (Raise e) [{| req_url := url; req_params := params |}]) ->
  performs w (bind (requests_get url params) k) Q.
Proof.
  intros Hk He log. unfold bind, requests_get.
  destruct (http w _) as [resp|e] eqn:E.
  - destruct (Hk resp eq_refl (log ++ [{| req_url := url; req_params := params |}])%list)
      as (sent & Hs & HQ).
    eexists. split; [|exact HQ]. rewrite Hs. now rewrite <- app_assoc.
  - eexists. split; [reflexivity|]. now apply He.
Qed.

Lemma performs_bind_status {B} w resp (k : unit -> Eff B) Q :
  (status_error resp = None -> performs w (k tt) Q) ->
  (forall e, status_error resp = Some e -> Q (Raise e) []) ->
  performs w (bind (raise_for_status resp) k) Q.
Proof.
  intros Hk He log. unfold bind, raise_for_status.
  destruct (status_error resp) as [e|].
  - exists []. simpl. rewrite app_nil_r. split; [reflexivity | now apply He].
  - exact (Hk eq_refl log).
Qed.

Lemma performs_bind_json {B} w resp (k : pyval -> Eff B) Q :
  (forall data, json_body resp = Ok data -> performs w (k data) Q) ->
  (forall e, json_body resp = Raise e -> Q (Raise e) []) ->
  performs w (bind (json resp) k) Q.
Proof. unfold json. apply performs_bind_lift. Qed.

(** The body of a [try] must establish, for each exception it may end
    with, what the matching [except] clause needs, or the conclusion
    itself where no clause matches. *)
Lemma performs_try_except {A} w (c : Eff A) h Q :
  performs w c
    (fun r sent =>
       match r with
       | Ok a => Q (Ok a) sent
       | Raise e =>
           match h e with
           | Some k => performs w k (fun r' sent' => Q r' (sent ++ sent')%list)
           | None => Q (Raise e) sent
           end
       end) ->
  performs w (try_except c h) Q.
Proof.
  intros H log. destruct (H log) as (sent & Hs & HQ). unfold try_except.
  destruct (c w log) as [[a|e] log1]; simpl in *; subst log1.
  - now exists sent.
  - destruct (h e) as [k|].
    + destruct (HQ (log ++ sent)%list) as (sent' & Hs' & HQ').
      exists (sent ++ sent')%list. split; [|exact HQ']. rewrite Hs'. now rewrite app_assoc.
    + now exists sent.
Qed.

(** Walks a tool function down to its [return] statements and to the
    places where an exception may arise. *)
Ltac trace :=
  repeat first
    [ apply performs_ret
    | apply performs_bind_environ
    | apply performs_bind_get; [intros ? ? | intros ? ?]
    | apply performs_bind_status; [intros ? | intros ? ?]
    | apply performs_bind_json; [intros ? ? | intros ? ?]
    | apply performs_bind_lift; [intros ? ? | intros ? ?]
    | apply performs_try_except
    | match goal with
      | |- performs _ (if ?b then _ else _) _ => destruct b eqn:?
      end ].

(** Decides which [except] clause, if any, takes the exception of a
    goal. *)
Ltac excepts :=
  cbv beta;
  match goal with
  | |- context [is_RequestException (exn_cls ?e)] =>
      destruct (is_RequestException (exn_cls e)) eqn:?;
      [ | destruct (exn_cls e) eqn:? ];
      try discriminate; try apply performs_ret
  end.

Lemma get_weather_sends repr city w :
  performs w (get_weather repr city)
    (fun _ sent =>
       sent = if missing (environ w !! "WEATHER_API_KEY") then []
              else [weather_request city w]).
Proof.
  unfold get_weather. trace; try excepts;
    repeat match goal with H : missing _ = _ |- _ => rewrite H end; reflexivity.
Qed.

(** X1. [get_weather] sends no request when WEATHER_API_KEY is unset or
    empty, and otherwise exactly one: the request to the weather service
    for the city, with the key and metric units. *)
Theorem weather_sends_one_request repr city w :
  snd (call repr GetWeather city w)
  = if missing (environ w !! "WEATHER_API_KEY") then [] else [weather_request city w].
Proof.
  destruct (get_weather_sends repr city w []) as (sent & Hs & ->). exact Hs.
Qed.

Lemma get_weather_lets_through repr city w :
  performs w (get_weather repr city)
    (fun r _ => forall e, r = Raise e -> caught e = false).
Proof.
  unfold get_weather. trace; try excepts;
    try (intros ? [= <-]); try discriminate;
    unfold caught;
    repeat match goal with H : _ = _ |- _ => rewrite H end; reflexivity.
Qed.

(** X2. An exception that leaves [get_weather] is none of those its
    [except] clauses name: it is no [RequestException], no [KeyError] and
    no [IndexError]. *)
Theorem weather_lets_through repr city w e log :
  call repr GetWeather city w = (Raise e, log) -> caught e = false.
Proof.
  intros H. destruct (get_weather_lets_through repr city w []) as (sent & _ & HQ).
  unfold call, tool_function in H. rewrite H in HQ. now apply HQ.
Qed.

(** X2, when the service answers with an array: the [TypeError] is let
    through. *)
Lemma weather_lets_through_witness :
  caught (Exn TypeError "list indices must be integers or slices, not str") = false.
Proof.
  apply (weather_lets_through sample_repr "Paris" malformed _
           [weather_request "Paris" malformed]).
  vm_compute. reflexivity.
Defined.

Lemma get_current_time_sends repr city w :
  performs w (get_current_time repr city) (fun _ sent => time_requests repr city w sent).
Proof.
  unfold get_current_time. trace; try excepts; unfold time_requests;
    first [ now left
          | right; now left
          | right; right;
            match goal with
            | Hh : http w _ = Ok ?resp, Hj : json_body ?resp = Ok ?data,
              H0 : getitem_int repr ?data 0 = Ok ?first,
              Hlat : getitem_str repr ?first "lat" = Ok ?lat,
              H1 : getitem_int repr ?data 0 = Ok ?first',
              Hlon : getitem_str repr ?first' "lon" = Ok ?lon |- _ =>
                exists resp, data, first, lat, lon;
                assert (first' = first) as -> by congruence;
                repeat split; assumption || reflexivity
            end ].
Qed.

(** X3. [get_current_time] sends its requests in one order only: none,
    or the geocoding request alone, or the geocoding request followed by
    the timezone request for the latitude and longitude that the
    geocoding answer holds. The timezone key goes to the timezone service
    only, and not before the city has been located. *)
Theorem time_sends_in_order repr city w :
  time_requests repr city w (snd (call repr GetCurrentTime city w)).
Proof.
  destruct (get_current_time_sends repr city w []) as (sent & Hs & H).
  unfold call, tool_function. now rewrite Hs.
Qed.

Lemma get_current_time_lets_through repr city w :
  performs w (get_current_time repr city)
    (fun r _ => forall e, r = Raise e -> caught e = false).
Proof.
  unfold get_current_time. trace; try excepts;
    try (intros ? [= <-]); try discriminate;
    unfold caught;
    repeat match goal with H : _ = _ |- _ => rewrite H end; reflexivity.
Qed.

(** X4. An exception that leaves [get_current_time] is no
    [RequestException], no [KeyError] and no [IndexError]. *)
Theorem time_lets_through repr city w e log :
  call repr GetCurrentTime city w = (Raise e, log) -> caught e = false.
Proof.
  intros H. destruct (get_current_time_lets_through repr city w []) as (sent & _ & HQ).
  unfold call, tool_function in H. rewrite H in HQ. now apply HQ.
Qed.

(** X4, when the geocoding service answers with a number: subscripting
    it raises a [TypeError], which is let through. *)
Lemma time_lets_through_witness :
  caught (Exn TypeError "'int' object is not subscriptable") = false.
Proof.
  apply (time_lets_through sample_repr "Paris"
           {| environ := environ paris; http := fun _ => ok_response (PInt 7) |} _
           [geocode_request "Paris" paris]).
  vm_compute. reflexivity.
Defined.

Lemma error_costs_nothing t w msg sent :
  success_cost t w (Ok {[ "status" := "error"; "error_message" := msg ]}) sent.
Proof. intros d [= <-] H. vm_compute in H. discriminate. Qed.

Lemma get_weather_success_cost repr city w :
  performs w (get_weather repr city) (success_cost GetWeather w).
Proof.
  unfold get_weather. trace; try excepts;
    try apply error_costs_nothing;
    intros d Hd; try discriminate Hd; intros _.
  split; [assumption | split; [discriminate | reflexivity]].
Qed.

Lemma get_current_time_success_cost repr city w :
  performs w (get_current_time repr city) (success_cost GetCurrentTime w).
Proof.
  unfold get_current_time. trace; try excepts;
    try apply error_costs_nothing;
    intros d Hd; try discriminate Hd; intros _.
  split; [assumption | split; [intros _; assumption | reflexivity]].
Qed.

(** X5. A success is never made up locally: when [get_weather] returns
    status success, WEATHER_API_KEY is set and one request was sent; when
    [get_current_time] returns status success, both keys are set and two
    requests were sent. *)
Theorem success_needs_the_network repr t city w d log :
  call repr t city w = (Ok d, log) ->
  d !! "status" = Some "success" ->
  missing (environ w !! "WEATHER_API_KEY") = false
  /\ (t = GetCurrentTime -> missing (environ w !! "TIMEZONE_API_KEY") = false)
  /\ length log = match t with GetWeather => 1%nat | GetCurrentTime => 2%nat end.
Proof.
  intros H Hs. unfold call in H. destruct t; simpl in H.
  - destruct (get_weather_success_cost repr city w []) as (sent & Hl & HQ).
    rewrite H in Hl, HQ. simpl in Hl. subst log. exact (HQ d eq_refl Hs).
  - destruct (get_current_time_success_cost repr city w []) as (sent & Hl & HQ).
    rewrite H in Hl, HQ. simpl in Hl. subst log. exact (HQ d eq_refl Hs).
Qed.

(** X5, for the time of day in Paris. *)
Lemma success_needs_the_network_witness :
  missing (environ paris !! "WEATHER_API_KEY") = false
  /\ (GetCurrentTime = GetCurrentTime ->
      missing (environ paris !! "TIMEZONE_API_KEY") = false)
  /\ length [geocode_request "Paris" paris;
             timezone_request paris (PInt 48) (PInt 2)] = 2%nat.
Proof.
  apply (success_needs_the_network sample_repr GetCurrentTime "Paris" paris
           {[ "status" := "success";
              "report" := "The current time in Paris is 2024-01-01 10:00:00 (Europe/Paris)" ]}).
  - vm_compute. reflexivity.
  - reflexivity.
Defined.

(** *** The tool functions on a given answer *)

(** Closes a goal that ends in the [except] clauses of a tool. *)
Ltac handled :=
  first
    [ reflexivity
    | match goal with
      | |- context [is_RequestException (exn_cls ?e)] =>
          destruct (is_RequestException (exn_cls e));
          [ reflexivity | destruct (exn_cls e); reflexivity ]
      end ].

(** With its key set, [get_weather] sends its request and, on an answer,
    returns the report built from it, or what its [except] clauses make
    of the exception. *)
Lemma get_weather_on_answer repr city w data :
  missing (environ w !! "WEATHER_API_KEY") = false ->
  answers w (weather_request city w) data ->
  call repr GetWeather city w
  = (match weather_report repr city data with
     | Ok report => Ok {[ "status" := "success"; "report" := report ]}
     | Raise e => weather_except city e
     end,
     [weather_request city w]).
Proof.
  intros Hkey (response & Hget & Hstatus & Hjson).
  unfold weather_request in Hget.
  unfold call, tool_function, get_weather, bind, environ_get, try_except,
    requests_get, raise_for_status, json, lift, ret, weather_report, weather_except,
    fahrenheit_of, weather_request.
  rewrite Hkey. simpl. rewrite Hget, Hstatus, Hjson.
  destruct (getitem_str repr data "main") as [main|e]; simpl; [|handled].
  destruct (getitem_str repr main "temp") as [temp_c|e]; simpl; [|handled].
  destruct (mul_int temp_c 9) as [t9|e]; simpl; [|handled].
  destruct (truediv_int t9 5) as [t95|e]; simpl; [|handled].
  destruct (add_int t95 32) as [temp_f|e]; simpl; [|handled].
  destruct (getitem_str repr data "weather") as [weather|e]; simpl; [|handled].
  destruct (getitem_int repr weather 0) as [weather0|e]; simpl; [|handled].
  destruct (getitem_str repr weather0 "description") as [desc|e]; simpl; [|handled].
  destruct (format_1f temp_c) as [celsius|e]; simpl; [|handled].
  destruct (format_1f temp_f) as [fahrenheit|e]; simpl; handled.
Qed.

Lemma get_weather_on_failure repr city w e :
  missing (environ w !! "WEATHER_API_KEY") = false ->
  fails_with w (weather_request city w) e ->
  call repr GetWeather city w = (weather_except city e, [weather_request city w]).
Proof.
  intros Hkey Hfail.
  unfold call, tool_function, get_weather, bind, environ_get, try_except,
    requests_get, raise_for_status, json, lift, ret, weather_except.
  rewrite Hkey. simpl.
  destruct Hfail as [Hget | response Hget Hstatus | response Hget Hstatus Hjson];
    unfold weather_request in Hget; rewrite Hget; simpl;
    rewrite ?Hstatus; simpl; rewrite ?Hjson; simpl; handled.
Qed.

(** X6. With the key set, when fetching fails with a
    [RequestException] (the request itself, a bad HTTP status, or a body
    that is not JSON), [get_weather] returns status error with the message
    "Error fetching weather for '<city>': <text of the exception>", after
    the one request. *)
Theorem weather_fetch_failure repr city w e :
  missing (environ w !! "WEATHER_API_KEY") = false ->
  fails_with w (weather_request city w) e ->
  is_RequestException (exn_cls e) = true ->
  call repr GetWeather city w
  = (Ok {[ "status" := "error";
           "error_message" := "Error fetching weather for '" +:+ city +:+ "': " +:+ exn_str e ]},
     [weather_request city w]).
Proof.
  intros Hkey Hfail Hcls. rewrite (get_weather_on_failure repr city w e Hkey Hfail).
  unfold weather_except. now rewrite Hcls.
Qed.

(** X6, for an answer with status 401. *)
Lemma weather_fetch_failure_witness :
  call sample_repr GetWeather "Paris" unauthorized
  = (Ok {[ "status" := "error";
           "error_message" :=
             "Error fetching weather for 'Paris': 401 Client Error: Unauthorized" ]},
     [weather_request "Paris" unauthorized]).
Proof.
  apply (weather_fetch_failure sample_repr "Paris" unauthorized
           (Exn HTTPError "401 Client Error: Unauthorized")).
  - reflexivity.
  - eapply status_raises; reflexivity.
  - reflexivity.
Defined.

(** X7. With the key set, when the answer is an object without the key
    [main], [get_weather] returns status error with the message "Error
    parsing weather data for '<city>': " followed by the name of the
    key as [repr] prints it. *)
Theorem weather_missing_main repr city w d :
  missing (environ w !! "WEATHER_API_KEY") = false ->
  answers w (weather_request city w) (PDict d) ->
  assoc "main" d = None ->
  call repr GetWeather city w
  = (Ok {[ "status" := "error";
           "error_message" :=
             "Error parsing weather data for '" +:+ city +:+ "': " +:+ repr (PStr "main") ]},
     [weather_request city w]).
Proof.
  intros Hkey Hans Hd. rewrite (get_weather_on_answer repr city w _ Hkey Hans).
  unfold weather_report. simpl. now rewrite Hd.
Qed.

(** X7, for an answer that holds the [weather] array only. *)
Lemma weather_missing_main_witness :
  call sample_repr GetWeather "Paris" no_main
  = (Ok {[ "status" := "error";
           "error_message" := "Error parsing weather data for 'Paris': 'main'" ]},
     [weather_request "Paris" no_main]).
Proof.
  apply (weather_missing_main sample_repr "Paris" no_main
           [ ("weather", PList [ PDict [ ("description", PStr "clear sky") ] ]) ]).
  - reflexivity.
  - eexists. repeat split; reflexivity.
  - reflexivity.
Defined.

(** X8. With the key set, when the answer holds a temperature but an
    empty [weather] array, [get_weather] returns status error with the
    message "Error parsing weather data for '<city>': list index out of
    range". *)
Theorem weather_empty_array repr city w data main temp_c temp_f :
  missing (environ w !! "WEATHER_API_KEY") = false ->
  answers w (weather_request city w) data ->
  getitem_str repr data "main" = Ok main ->
  getitem_str repr main "temp" = Ok temp_c ->
  fahrenheit_of temp_c = Ok temp_f ->
  getitem_str repr data "weather" = Ok (PList []) ->
  call repr GetWeather city w
  = (Ok {[ "status" := "error";
           "error_message" :=
             "Error parsing weather data for '" +:+ city +:+ "': list index out of range" ]},
     [weather_request city w]).
Proof.
  intros Hkey Hans Hmain Htemp Hf Hw. rewrite (get_weather_on_answer repr city w _ Hkey Hans).
  unfold weather_report. rewrite Hmain. simpl. rewrite Htemp. simpl. rewrite Hf. simpl.
  rewrite Hw. reflexivity.
Qed.

(** X8, for 18 degrees and no description. *)
Lemma weather_empty_array_witness :
  call sample_repr GetWeather "Paris" no_description
  = (Ok {[ "status" := "error";
           "error_message" :=
             "Error parsing weather data for 'Paris': list index out of range" ]},
     [weather_request "Paris" no_description]).
Proof.
  apply (weather_empty_array sample_repr "Paris" no_description
           (PDict [ ("weather", PList []); ("main", PDict [ ("temp", PInt 18) ]) ])
           (PDict [ ("temp", PInt 18) ]) (PInt 18)
           (PFloat (S754_finite false 4531747125041562 (-46)))).
  - reflexivity.
  - eexists. repeat split; reflexivity.
  - reflexivity.
  - reflexivity.
  - vm_compute. reflexivity.
  - reflexivity.
Defined.

(** X9. With the key set, when the answer is not a JSON object (an
    array, a string, a number, a boolean or null), [get_weather] returns
    no envelope: the [TypeError] of the first subscript leaves it. *)
Theorem weather_not_an_object repr city w data :
  missing (environ w !! "WEATHER_API_KEY") = false ->
  answers w (weather_request city w) data ->
  not_a_dict data = true ->
  exists e, call repr GetWeather city w = (Raise e, [weather_request city w])
            /\ exn_cls e = TypeError.
Proof.
  intros Hkey Hans Hshape. rewrite (get_weather_on_answer repr city w _ Hkey Hans).
  destruct data; try discriminate; eexists; (split; [reflexivity|]); reflexivity.
Qed.

(** X9, for the empty array. *)
Lemma weather_not_an_object_witness :
  exists e, call sample_repr GetWeather "Paris" malformed
            = (Raise e, [weather_request "Paris" malformed])
            /\ exn_cls e = TypeError.
Proof.
  apply (weather_not_an_object sample_repr "Paris" malformed (PList [])).
  - reflexivity.
  - eexists. repeat split; reflexivity.
  - reflexivity.
Defined.

(** X10. With the key set, on an answer that holds a temperature for
    which the conversion and the two formats go through, and a first
    [weather] entry with a description, [get_weather] returns status
    success with the report of the source's f-string, after the one
    request. *)
Theorem weather_success repr city w data main temp_c temp_f weather first description
    celsius fahrenheit :
  missing (environ w !! "WEATHER_API_KEY") = false ->
  answers w (weather_request city w) data ->
  getitem_str repr data "main" = Ok main ->
  getitem_str repr main "temp" = Ok temp_c ->
  fahrenheit_of temp_c = Ok temp_f ->
  getitem_str repr data "weather" = Ok weather ->
  getitem_int repr weather 0 = Ok first ->
  getitem_str repr first "description" = Ok description ->
  format_1f temp_c = Ok celsius ->
  format_1f temp_f = Ok fahrenheit ->
  call repr GetWeather city w
  = (Ok {[ "status" := "success";
           "report" :=
             "The weather in " +:+ city +:+ " is " +:+ str repr description
             +:+ " with a temperature of " +:+ celsius
             +:+ " degrees Celsius (" +:+ fahrenheit +:+ " degrees Fahrenheit)." ]},
     [weather_request city w]).
Proof.
  intros Hkey Hans Hmain Htemp Hf Hw H0 Hd Hc Hfa.
  rewrite (get_weather_on_answer repr city w _ Hkey Hans).
  unfold weather_report. rewrite Hmain. simpl. rewrite Htemp. simpl. rewrite Hf. simpl.
  rewrite Hw. simpl. rewrite H0. simpl. rewrite Hd. simpl. rewrite Hc. simpl.
  rewrite Hfa. reflexivity.
Qed.

(** X10, for 18 degrees and a clear sky in Paris. *)
Lemma weather_success_witness :
  call sample_repr GetWeather "Paris" paris
  = (Ok {[ "status" := "success";
           "report" := "The weather in Paris is clear sky with a temperature of 18.0 degrees Celsius (64.4 degrees Fahrenheit)." ]},
     [weather_request "Paris" paris]).
Proof.
  apply (weather_success sample_repr "Paris" paris
           (PDict [ ("weather", PList [ PDict [ ("description", PStr "clear sky") ] ]);
                    ("main", PDict [ ("temp", PInt 18) ]) ])
           (PDict [ ("temp", PInt 18) ]) (PInt 18)
           (PFloat (S754_finite false 4531747125041562 (-46)))
           (PList [ PDict [ ("description", PStr "clear sky") ] ])
           (PDict [ ("description", PStr "clear sky") ]) (PStr "clear sky")
           "18.0" "64.4");
    try reflexivity.
  eexists. repeat split; reflexivity.
Defined.

Lemma fahrenheit_of_float f : fahrenheit_of (PFloat f) = Ok (PFloat (fahrenheit_float f)).
Proof. reflexivity. Qed.

(** X11. A float temperature never makes [get_weather] fail, whatever
    its value (NaN and the infinities included): with the key set and a
    described first [weather] entry, the result is a success whose report
    shows the float and [f * 9/5 + 32], both through the [.1f] format. *)
Theorem weather_float_success repr city w data main f weather first description :
  missing (environ w !! "WEATHER_API_KEY") = false ->
  answers w (weather_request city w) data ->
  getitem_str repr data "main" = Ok main ->
  getitem_str repr main "temp" = Ok (PFloat f) ->
  getitem_str repr data "weather" = Ok weather ->
  getitem_int repr weather 0 = Ok first ->
  getitem_str repr first "description" = Ok description ->
  call repr GetWeather city w
  = (Ok {[ "status" := "success";
           "report" :=
             "The weather in " +:+ city +:+ " is " +:+ str repr description
             +:+ " with a temperature of " +:+ float_format_1f f
             +:+ " degrees Celsius (" +:+ float_format_1f (fahrenheit_float f)
             +:+ " degrees Fahrenheit)." ]},
     [weather_request city w]).
Proof.
  intros Hkey Hans Hmain Htemp Hw H0 Hd.
  rewrite (get_weather_on_answer repr city w _ Hkey Hans).
  unfold weather_report. rewrite Hmain. cbn [rbind]. rewrite Htemp. cbn [rbind].
  rewrite fahrenheit_of_float. cbn [rbind]. rewrite Hw. cbn [rbind].
  rewrite H0. cbn [rbind]. rewrite Hd. reflexivity.
Qed.

(** X11, for 18.5 degrees and mist: 65.3 degrees Fahrenheit. *)
Lemma weather_float_success_witness :
  call sample_repr GetWeather "Paris" float_weather
  = (Ok {[ "status" := "success";
           "report" := "The weather in Paris is mist with a temperature of 18.5 degrees Celsius (65.3 degrees Fahrenheit)." ]},
     [weather_request "Paris" float_weather]).
Proof.
  apply (weather_float_success sample_repr "Paris" float_weather
           (PDict [ ("weather", PList [ PDict [ ("description", PStr "mist") ] ]);
                    ("main", PDict [ ("temp", PFloat eighteen_and_a_half) ]) ])
           (PDict [ ("temp", PFloat eighteen_and_a_half) ]) eighteen_and_a_half
           (PList [ PDict [ ("description", PStr "mist") ] ])
           (PDict [ ("description", PStr "mist") ]) (PStr "mist"));
    try reflexivity.
  eexists. repeat split; reflexivity.
Defined.

(** *** The time lookup on given answers *)

(** X12. With both keys set, when the geocoding service answers with an
    empty value (an empty array, for a place it does not know),
    [get_current_time] returns status error with the message "Could not
    find location data for '<city>'." and the timezone service is never
    contacted. *)
Theorem time_location_unknown repr city w data :
  missing (environ w !! "TIMEZONE_API_KEY") = false ->
  missing (environ w !! "WEATHER_API_KEY") = false ->
  answers w (geocode_request city w) data ->
  truthy data = false ->
  call repr GetCurrentTime city w
  = (Ok {[ "status" := "error";
           "error_message" := "Could not find location data for '" +:+ city +:+ "'." ]},
     [geocode_request city w]).
Proof.
  intros Htz Hwk (response & Hget & Hstatus & Hjson) Hempty.
  unfold geocode_request in Hget.
  unfold call, tool_function, get_current_time, bind, environ_get, try_except,
    requests_get, raise_for_status, json, lift, ret, geocode_request.
  rewrite Htz, Hwk. simpl. rewrite Hget, Hstatus, Hjson, Hempty. reflexivity.
Qed.

(** X12, for a place the geocoding service does not know. *)
Lemma time_location_unknown_witness :
  call sample_repr GetCurrentTime "Atlantis" nowhere
  = (Ok {[ "status" := "error";
           "error_message" := "Could not find location data for 'Atlantis'." ]},
     [geocode_request "Atlantis" nowhere]).
Proof.
  apply (time_location_unknown sample_repr "Atlantis" nowhere (PList []));
    try reflexivity.
  eexists. repeat split; reflexivity.
Defined.

(** With both keys set and the city located, [get_current_time] sends
    the timezone request for the coordinates and returns what it makes of
    the answer, or what its [except] clauses make of the exception. *)
Lemma get_current_time_located repr city w data lat lon timezone_data :
  missing (environ w !! "TIMEZONE_API_KEY") = false ->
  missing (environ w !! "WEATHER_API_KEY") = false ->
  answers w (geocode_request city w) data ->
  truthy data = true ->
  coordinates repr data = Ok (lat, lon) ->
  answers w (timezone_request w lat lon) timezone_data ->
  call repr GetCurrentTime city w
  = (match time_answer repr city timezone_data with
     | Ok d => Ok d
     | Raise e => time_except city e
     end,
     [geocode_request city w; timezone_request w lat lon]).
Proof.
  intros Htz Hwk (response & Hget & Hstatus & Hjson) Hfull Hcoord
    (response' & Hget' & Hstatus' & Hjson').
  unfold geocode_request in Hget. unfold timezone_request in Hget'.
  unfold call, tool_function, get_current_time, bind, environ_get, try_except,
    requests_get, raise_for_status, json, lift, ret, geocode_request, timezone_request,
    time_answer, time_except.
  rewrite Htz, Hwk. simpl. rewrite Hget, Hstatus, Hjson, Hfull. simpl.
  revert Hcoord. unfold coordinates.
  destruct (getitem_int repr data 0) as [first|e]; [|discriminate]. cbn [rbind].
  destruct (getitem_str repr first "lat") as [lat'|e]; [|discriminate]. cbn [rbind].
  destruct (getitem_str repr first "lon") as [lon'|e]; [|discriminate]. cbn [rbind].
  intros [= -> ->]. simpl. rewrite Hget', Hstatus', Hjson'.
  destruct (getitem_str repr timezone_data "status") as [status|e]; simpl; [|handled].
  destruct (ne_str status "OK").
  - destruct (dict_get timezone_data "message" (PStr "Unknown error")) as [message|e];
      simpl; handled.
  - destruct (getitem_str repr timezone_data "formatted") as [formatted|e]; simpl; [|handled].
    destruct (getitem_str repr timezone_data "zoneName") as [zone|e]; simpl; handled.
Qed.

(** X13. With both keys set, a located city, and a timezone answer of
    status OK that holds [formatted] and [zoneName], [get_current_time]
    returns status success with the report "The current time in <city> is
    <formatted> (<zoneName>)", after the geocoding request and the
    timezone request for the coordinates found. *)
Theorem time_success repr city w data lat lon timezone_data formatted zone :
  missing (environ w !! "TIMEZONE_API_KEY") = false ->
  missing (environ w !! "WEATHER_API_KEY") = false ->
  answers w (geocode_request city w) data ->
  truthy data = true ->
  coordinates repr data = Ok (lat, lon) ->
  answers w (timezone_request w lat lon) timezone_data ->
  getitem_str repr timezone_data "status" = Ok (PStr "OK") ->
  getitem_str repr timezone_data "formatted" = Ok formatted ->
  getitem_str repr timezone_data "zoneName" = Ok zone ->
  call repr GetCurrentTime city w
  = (Ok {[ "status" := "success";
           "report" := "The current time in " +:+ city +:+ " is " +:+ str repr formatted
                       +:+ " (" +:+ str repr zone +:+ ")" ]},
     [geocode_request city w; timezone_request w lat lon]).
Proof.
  intros Htz Hwk Hgeo Hfull Hcoord Hans Hst Hf Hz.
  rewrite (get_current_time_located repr city w data lat lon timezone_data
             Htz Hwk Hgeo Hfull Hcoord Hans).
  unfold time_answer. rewrite Hst. cbn [rbind]. simpl. rewrite Hf. cbn [rbind].
  rewrite Hz. reflexivity.
Qed.

(** X13, for the time of day in Paris. *)
Lemma time_success_witness :
  call sample_repr GetCurrentTime "Paris" paris
  = (Ok {[ "status" := "success";
           "report" := "The current time in Paris is 2024-01-01 10:00:00 (Europe/Paris)" ]},
     [geocode_request "Paris" paris; timezone_request paris (PInt 48) (PInt 2)]).
Proof.
  apply (time_success sample_repr "Paris" paris
           (PList [ PDict [ ("lat", PInt 48); ("lon", PInt 2) ] ]) (PInt 48) (PInt 2)
           (PDict [ ("status", PStr "OK");
                    ("formatted", PStr "2024-01-01 10:00:00");
                    ("zoneName", PStr "Europe/Paris") ])
           (PStr "2024-01-01 10:00:00") (PStr "Europe/Paris"));
    try reflexivity; eexists; repeat split; reflexivity.
Defined.

(** X14. With both keys set and a located city, when the timezone
    service answers with a status other than OK, [get_current_time]
    returns status error with "Error fetching timezone data: " followed by
    the [message] of the answer, or by "Unknown error" when the answer has
    none. *)
Theorem time_refused repr city w data lat lon d status :
  missing (environ w !! "TIMEZONE_API_KEY") = false ->
  missing (environ w !! "WEATHER_API_KEY") = false ->
  answers w (geocode_request city w) data ->
  truthy data = true ->
  coordinates repr data = Ok (lat, lon) ->
  answers w (timezone_request w lat lon) (PDict d) ->
  assoc "status" d = Some status ->
  ne_str status "OK" = true ->
  call repr GetCurrentTime city w
  = (Ok {[ "status" := "error";
           "error_message" :=
             "Error fetching timezone data: "
             +:+ str repr (default (PStr "Unknown error") (assoc "message" d)) ]},
     [geocode_request city w; timezone_request w lat lon]).
Proof.
  intros Htz Hwk Hgeo Hfull Hcoord Hans Hst Hne.
  rewrite (get_current_time_located repr city w data lat lon (PDict d)
             Htz Hwk Hgeo Hfull Hcoord Hans).
  unfold time_answer. simpl. rewrite Hst. cbn [rbind]. now rewrite Hne.
Qed.

(** X14, for a refusal without a message. *)
Lemma time_refused_witness :
  call sample_repr GetCurrentTime "Paris" refused
  = (Ok {[ "status" := "error";
           "error_message" := "Error fetching timezone data: Unknown error" ]},
     [geocode_request "Paris" refused; timezone_request refused (PInt 48) (PInt 2)]).
Proof.
  apply (time_refused sample_repr "Paris" refused
           (PList [ PDict [ ("lat", PInt 48); ("lon", PInt 2) ] ]) (PInt 48) (PInt 2)
           [ ("status", PStr "FAILED") ] (PStr "FAILED"));
    try reflexivity; eexists; repeat split; reflexivity.
Defined.

(** *** The [.1f] format *)

(** The tenths computed for a finite float [m * 2^e] are the integer
    nearest to ten times its exact value: the difference is at most one
    half, and where it is exactly one half the even integer is taken. *)
Lemma format_1f_nearest_tenth m e :
  2 * Z.abs (10 * numerator m e - tenths m e * denominator e) <= denominator e
  /\ (2 * Z.abs (10 * numerator m e - tenths m e * denominator e) = denominator e ->
      Z.even (tenths m e) = true).
Proof.
  unfold numerator, denominator, tenths. destruct (0 <=? e) eqn:E.
  - replace (10 * (Z.pos m * 2 ^ e) - 10 * Z.pos m * 2 ^ e * 1) with 0 by ring.
    simpl. split; [lia | discriminate].
  - apply Z.leb_gt in E.
    assert (0 < 2 ^ (- e)) as Hden by (apply Z.pow_pos_nonneg; lia).
    set (den := 2 ^ (- e)) in *. set (num := 10 * Z.pos m).
    unfold round_half_even.
    pose proof (Z.div_mod num den ltac:(lia)) as Hdm.
    pose proof (Z.mod_pos_bound num den Hden) as Hr.
    destruct (2 * (num mod den) ?= den) eqn:C.
    + apply Z.compare_eq in C. destruct (Z.even (num / den)) eqn:Ev.
      * split; [nia | intros _; exact Ev].
      * split; [nia|]. intros _. rewrite Z.even_add, Ev. reflexivity.
    + rewrite Z.compare_lt_iff in C. split; nia.
    + rewrite Z.compare_gt_iff in C. split; nia.
Qed.

End TraceFacts.

(** ** More on the command-line entry point *)

Module CliMore.
Import Text TextFacts Py Cli Turns Traces CliFacts.

(** X16. With a task on the command line, or with [--list-tools], [main]
    never reads a line: what it prints and how it ends is the same for
    every interactive session and for any number of turns. *)
Theorem main_reads_no_input args c session session' fuel fuel' :
  list_tools args = true \/ given (task args) = true ->
  main args c session fuel = main args c session' fuel'.
Proof.
  intros H. unfold main.
  destruct (if given (config args) then load_config c (default "" (config args)) else None);
    [reflexivity|].
  destruct (list_tools args); [reflexivity|].
  destruct H as [H|H]; [discriminate|]. rewrite H.
  now destruct (create_agent (policy c) (registry c)).
Qed.

(** X16, for a task on the command line. *)
Lemma main_reads_no_input_witness :
  main single_task sample_collaborators short_session 10
  = main single_task sample_collaborators closed_input 0.
Proof.
  apply (main_reads_no_input single_task sample_collaborators). right. reflexivity.
Defined.

(** X17. On a registry filled by registration calls, [create_agent]
    does not fail, and the agent it builds holds, under the same names and
    in the same order, the tools of the registry. *)
Theorem create_agent_populated p p' ts :
  create_agent p (Core.populate p' Core.empty ts) = inl (Core.populate p' Core.empty ts).
Proof. apply create_agent_copies, consistent_populate, consistent_empty. Qed.

Lemma input_error_turn c fmt t e :
  raised t = Some e -> is_Exception (exn_cls e) = true ->
  iteration c fmt t = (["Error: " +:+ exn_str e], Continue).
Proof.
  unfold raised, iteration, handler. intros Hr He.
  destruct (entered t) as [line|e0].
  - destruct (is_quit line); [discriminate|]. simpl in Hr.
    destruct (String.eqb (lower line) "tools"); [discriminate|].
    destruct (ran t) as [r|e1]; [discriminate|]. injection Hr as ->.
    destruct (exn_cls e); try discriminate; reflexivity.
  - injection Hr as ->. destruct (exn_cls e); try discriminate; reflexivity.
Qed.

(** X18. An exception of class [Exception] in a turn, raised by [input]
    or by the agent, does not end the session: [main] prints "Error: "
    with the text of the exception and goes on to the next turn. *)
Theorem exception_keeps_session c fmt t e :
  raised t = Some e ->
  is_Exception (exn_cls e) = true ->
  iteration c fmt t = (["Error: " +:+ exn_str e], Continue).
Proof. apply input_error_turn. Qed.

(** X18, for a task on which the agent fails. *)
Lemma exception_keeps_session_witness :
  iteration sample_collaborators text
    {| entered := Ok "weather in Paris"; ran := Raise (Exn ValueError "no model") |}
  = (["Error: no model"], Continue).
Proof.
  apply (exception_keeps_session sample_collaborators text
           {| entered := Ok "weather in Paris"; ran := Raise (Exn ValueError "no model") |}
           (Exn ValueError "no model")); reflexivity.
Defined.

Lemma loop_on_input_errors c fmt session :
  (forall k, exists e, entered (session k) = Raise e /\ is_Exception (exn_cls e) = true) ->
  forall fuel i,
    snd (loop c fmt session fuel i) = Runs
    /\ length (fst (loop c fmt session fuel i)) = fuel
    /\ Forall (fun line => starts_with "Error: " line = true)
         (fst (loop c fmt session fuel i)).
Proof.
  intros H. induction fuel as [|fuel IH]; intros i; simpl.
  - repeat split. constructor.
  - destruct (H i) as (e & He & Hc).
    rewrite (input_error_turn c fmt (session i) e); [|unfold raised; now rewrite He|exact Hc].
    destruct (IH (S i)) as (Hx & Hl & Hf).
    destruct (loop c fmt session fuel (S i)) as [out x]. simpl in *.
    split; [exact Hx|]. split; [now rewrite Hl|].
    constructor; [reflexivity | exact Hf].
Qed.

(** X19. When standard input is closed, so that every [input] raises an
    [EOFError] (or any other [Exception]), the interactive loop never
    ends: after any number of turns [main] is still in the loop and has
    printed, after the banner, one "Error: ..." line per turn. *)
Theorem closed_input_never_ends args c session fuel :
  given (task args) = false ->
  list_tools args = false ->
  starts args c ->
  (forall k, exists e, entered (session k) = Raise e /\ is_Exception (exn_cls e) = true) ->
  snd (main args c session fuel) = Runs
  /\ length (fst (main args c session fuel)) = (3 + fuel)%nat
  /\ Forall (fun line => starts_with "Error: " line = true)
       (drop 3 (fst (main args c session fuel))).
Proof.
  intros Htask Hlist Hstart Hin.
  rewrite (main_interactive args c session fuel Htask Hlist Hstart).
  destruct (loop_on_input_errors c (output args) session Hin fuel 0%nat) as (Hx & Hl & Hf).
  simpl. split; [exact Hx|]. split; [now rewrite Hl | exact Hf].
Qed.

(** X19, for five turns on a closed input. *)
Lemma closed_input_never_ends_witness :
  snd (main interactive sample_collaborators closed_input 5) = Runs
  /\ length (fst (main interactive sample_collaborators closed_input 5)) = 8%nat
  /\ Forall (fun line => starts_with "Error: " line = true)
       (drop 3 (fst (main interactive sample_collaborators closed_input 5))).
Proof.
  apply (closed_input_never_ends interactive sample_collaborators closed_input 5).
  - reflexivity.
  - reflexivity.
  - split; [discriminate|]. exists Core.FailLoud. eexists. reflexivity.
  - intros k. eexists. split; reflexivity.
Defined.

Lemma loop_settled c fmt session fuel n i :
  snd (loop c fmt session fuel i) <> Runs ->
  loop c fmt session (fuel + n) i = loop c fmt session fuel i.
Proof.
  revert i. induction fuel as [|fuel IH]; intros i H; simpl in *; [congruence|].
  destruct (iteration c fmt (session i)) as [out [| |e]]; try reflexivity.
  destruct (loop c fmt session fuel (S i)) as [out' x] eqn:E.
  rewrite IH; rewrite E; [reflexivity | exact H].
Qed.

(** Enough turns settle the outcome of [main]: once it has ended, by a
    return or by an exception, counting more turns changes nothing. *)
Lemma main_settled args c session fuel n :
  snd (main args c session fuel) <> Runs ->
  main args c session (fuel + n) = main args c session fuel.
Proof.
  unfold main.
  destruct (if given (config args) then load_config c (default "" (config args)) else None);
    [reflexivity|].
  destruct (list_tools args); [reflexivity|].
  destruct (create_agent (policy c) (registry c)); [|reflexivity].
  destruct (given (task args)); [reflexivity|].
  intros H. rewrite loop_settled; [reflexivity|].
  now destruct (loop c (output args) session fuel 0).
Qed.

End CliMore.

(** ** What the report shows, and what an error message states *)

Module ReportFacts.
Import Text TextFacts Py Agent Props Traces TraceFacts.

(** *** Temperatures to one decimal place *)

(** The text that [.1f] gives for a float is what one decimal place asks
    for. *)
Lemma float_format_1f_shown x : shown_to_one_decimal x (float_format_1f x).
Proof.
  destruct x as [neg|neg| |neg m e]; simpl.
  - now destruct neg.
  - now destruct neg.
  - reflexivity.
  - exists (tenths m e).
    destruct (format_1f_nearest_tenth m e) as [Hnear Htie].
    split; [apply AgentFacts.tenths_nonneg|]. split; [exact Hnear|].
    split; [exact Htie|]. now destruct neg.
Qed.

Lemma format_1f_float_value v s :
  format_1f v = Ok s -> exists c, float_value v = Some c /\ s = float_format_1f c.
Proof.
  unfold format_1f, int_to_float, float_value. destruct v; try discriminate.
  - intros [= <-]. eauto.
  - destruct (float_of_Z z) eqn:E; cbv [rbind]; try discriminate;
      intros [= <-]; eauto.
  - intros [= <-]. eauto.
Qed.

Lemma truediv_int_float v k t : truediv_int v k = Ok t -> exists f, t = PFloat f.
Proof.
  unfold truediv_int. destruct v; try discriminate.
  - destruct (int_truediv (Z.b2z b) k); cbv [rbind]; [|discriminate]. intros [= <-]. eauto.
  - destruct (int_truediv z k); cbv [rbind]; [|discriminate]. intros [= <-]. eauto.
  - destruct (int_to_float k); cbv [rbind]; [|discriminate].
    destruct (is_zero a); [discriminate|]. intros [= <-]. eauto.
Qed.

(** [temp_c * 9/5 + 32], where it has a value, is a float. *)
Lemma fahrenheit_of_is_float v t : fahrenheit_of v = Ok t -> exists f, t = PFloat f.
Proof.
  unfold fahrenheit_of. destruct (mul_int v 9) as [t9|]; cbv [rbind]; [|discriminate].
  destruct (truediv_int t9 5) as [t95|] eqn:E; [|discriminate].
  apply truediv_int_float in E as [g ->]. unfold add_int.
  destruct (int_to_float 32); cbv [rbind]; [|discriminate]. intros [= <-]. eauto.
Qed.

Lemma not_one_decimal_nan : ~ one_decimal "nan".
Proof.
  intros (neg & whole & digit & _ & _ & H).
  assert (contains "." "nan") as Hdot.
  { rewrite H. apply contains_app_r, contains_app_r, contains_app_l, contains_refl. }
  apply containsb_spec in Hdot. vm_compute in Hdot. discriminate.
Qed.

(** C10 as stated fails: for a temperature that is not a number, which
    [response.json()] accepts, [get_weather] returns status success and
    the report shows [nan] for both temperatures, which is no number
    with one decimal place. *)
Lemma nan_report_counterexample :
  call sample_repr GetWeather "Paris" nan_weather
  = (Ok {[ "status" := "success";
           "report" := "The weather in Paris is mist with a temperature of nan degrees Celsius (nan degrees Fahrenheit)." ]},
     [weather_request "Paris" nan_weather])
  /\ format_1f (PFloat S754_nan) = Ok "nan"
  /\ ~ one_decimal "nan".
Proof.
  split; [vm_compute; reflexivity|]. split; [reflexivity | exact not_one_decimal_nan].
Qed.

(** C10, amended. The report of every successful [get_weather] result
    shows the temperature read from the answer, in degrees Celsius, and
    [temp_c * 9/5 + 32], in degrees Fahrenheit, each formatted with
    [.1f]: for a finite value the sign, the integer part, the point and
    one digit, of the tenth nearest to the value (the even one of two
    equally near); for a value that is not finite, [nan], [inf] or
    [-inf]. *)
Theorem weather_report_rounds repr city w d log :
  call repr GetWeather city w = (Ok d, log) ->
  d !! "status" = Some "success" ->
  shows_rounded_temperatures repr city w d.
Proof.
  intros H Hs.
  destruct (AgentFacts.get_weather_temperatures repr city w _ _ _ H Hs)
    as (response & data & main & temp_c & temp_f & desc & celsius & fahrenheit
        & Hget & Hjson & Hmain & Htemp & Hf & Hc & Hfa & Hrep).
  destruct (fahrenheit_of_is_float _ _ Hf) as [f ->].
  destruct (format_1f_float_value _ _ Hc) as (c & Hval & ->).
  injection Hfa as <-.
  exists response, data, main, temp_c, c, f, desc, (float_format_1f c), (float_format_1f f).
  repeat (split; [assumption|]).
  split; [apply float_format_1f_shown|]. split; [apply float_format_1f_shown | exact Hrep].
Qed.

(** C10 amended, at the Paris sample: 18 degrees Celsius are 64.4
    degrees Fahrenheit. *)
Lemma weather_report_rounds_witness :
  shows_rounded_temperatures sample_repr "Paris" paris
    {[ "status" := "success";
       "report" := "The weather in Paris is clear sky with a temperature of 18.0 degrees Celsius (64.4 degrees Fahrenheit)." ]}.
Proof.
  apply (weather_report_rounds sample_repr "Paris" paris _
           [weather_request "Paris" paris]).
  - vm_compute. reflexivity.
  - reflexivity.
Defined.

(** *** The cause that an error message states *)

Lemma explains_error_success repr t city w text sent :
  explains_error repr t city w (Ok {[ "status" := "success"; "report" := text ]}) sent.
Proof. intros d [= <-] H. vm_compute in H. discriminate. Qed.

Lemma explains_error_raise repr t city w e sent :
  explains_error repr t city w (Raise e) sent.
Proof. intros d H. discriminate. Qed.

Lemma explains_error_cause repr t city w msg sent :
  root_cause repr t city w msg ->
  explains_error repr t city w (Ok {[ "status" := "error"; "error_message" := msg ]}) sent.
Proof. intros H d [= <-] _. exists msg. split; [reflexivity | exact H]. Qed.

(** Rewrites with what the steps before gave, to evaluate the pure part
    of a tool function up to the step that raised. *)
Ltac replay :=
  cbn [rbind];
  repeat match goal with
         | H : ?l = Ok _ |- context [?l] => rewrite H; cbn [rbind]
         | H : ?l = Raise _ |- context [?l] => rewrite H; cbn [rbind]
         | H : ne_str _ _ = _ |- _ => rewrite H; cbn [rbind]
         end;
  reflexivity.

(** Shows that a service failed or answered, from the steps before. *)
Ltac service :=
  first
    [ apply request_raises; assumption
    | eapply status_raises; eassumption
    | eapply body_raises; eassumption
    | eexists; split; [eassumption | split; eassumption] ].

Ltac weather_raised :=
  first
    [ apply weather_fetch_raises; unfold weather_request; service
    | eapply weather_answer_raises;
      [ unfold weather_request; service
      | unfold weather_report, fahrenheit_of; replay ] ].

Lemma get_weather_explains repr city w :
  performs w (get_weather repr city) (explains_error repr GetWeather city w).
Proof.
  unfold get_weather. trace; try excepts;
    first
      [ apply explains_error_success
      | apply explains_error_raise
      | apply explains_error_cause;
        first
          [ now apply no_weather_key
          | apply weather_not_fetched; [assumption | weather_raised | assumption]
          | apply weather_not_parsed; [assumption | weather_raised | auto] ] ].
Qed.

(** Identifies the values that one expression was found to have twice. *)
Ltac dedup :=
  repeat match goal with
         | H : ?l = Ok ?a, H' : ?l = Ok ?b |- _ =>
             tryif constr_eq a b then fail
             else (assert (b = a) by congruence; subst b; clear H')
         end.

Ltac was_located :=
  eexists; split;
  [ unfold geocode_request; service
  | split; [ apply negb_false_iff; eassumption | unfold coordinates; replay ] ].

Ltac time_raised :=
  first
    [ apply geocoding_raises; unfold geocode_request; service
    | eapply coordinates_raise;
      [ unfold geocode_request; service
      | apply negb_false_iff; eassumption
      | unfold coordinates; replay ]
    | eapply timezone_raises; [ was_located | service ]
    | eapply timezone_answer_raises;
      [ was_located | service | unfold time_answer; replay ] ].

Lemma get_current_time_explains repr city w :
  performs w (get_current_time repr city) (explains_error repr GetCurrentTime city w).
Proof.
  unfold get_current_time. trace; try excepts; dedup;
    try (exfalso; congruence);
    first
      [ apply explains_error_success
      | apply explains_error_raise
      | apply explains_error_cause;
        first
          [ now apply no_timezone_key
          | now apply no_geocoding_key
          | eapply city_not_located;
            [ assumption | assumption | unfold geocode_request; service
            | apply negb_true_iff; eassumption ]
          | eapply timezone_refuses;
            [ assumption | assumption | was_located | service
            | eassumption | eassumption | eassumption ]
          | apply time_not_fetched; [assumption | assumption | time_raised | assumption]
          | apply time_not_parsed; [assumption | assumption | time_raised | auto] ] ].
Qed.

(** The world decides the cause: a service fails in one way or answers
    with one value, so one exception at most leaves a [try] block. *)
Lemma answers_unique w rq d1 d2 : answers w rq d1 -> answers w rq d2 -> d1 = d2.
Proof. intros (r1 & H1 & S1 & J1) (r2 & H2 & S2 & J2). congruence. Qed.

Lemma fails_with_unique w rq e1 e2 : fails_with w rq e1 -> fails_with w rq e2 -> e1 = e2.
Proof.
  intros [H1 | r1 H1 S1 | r1 H1 S1 J1] [H2 | r2 H2 S2 | r2 H2 S2 J2];
    try congruence;
    assert (r1 = r2) by congruence; subst; congruence.
Qed.

Lemma fails_or_answers w rq e d : fails_with w rq e -> answers w rq d -> False.
Proof.
  intros [H1 | r1 H1 S1 | r1 H1 S1 J1] (r2 & H2 & S2 & J2);
    try congruence;
    assert (r1 = r2) by congruence; subst; congruence.
Qed.

Lemma weather_raises_unique repr city w e1 e2 :
  weather_raises repr city w e1 -> weather_raises repr city w e2 -> e1 = e2.
Proof.
  intros [F1 | d1 A1 R1] [F2 | d2 A2 R2].
  - exact (fails_with_unique _ _ _ _ F1 F2).
  - destruct (fails_or_answers _ _ _ _ F1 A2).
  - destruct (fails_or_answers _ _ _ _ F2 A1).
  - assert (d1 = d2) by exact (answers_unique _ _ _ _ A1 A2). subst. congruence.
Qed.

Lemma located_unique repr city w lat1 lon1 lat2 lon2 :
  located repr city w lat1 lon1 -> located repr city w lat2 lon2 ->
  lat1 = lat2 /\ lon1 = lon2.
Proof.
  intros (d1 & A1 & T1 & C1) (d2 & A2 & T2 & C2).
  assert (d1 = d2) by exact (answers_unique _ _ _ _ A1 A2). subst.
  split; congruence.
Qed.

Lemma located_not_failed repr city w lat lon e :
  located repr city w lat lon -> fails_with w (geocode_request city w) e -> False.
Proof. intros (d & A & T & C) F. exact (fails_or_answers _ _ _ _ F A). Qed.

Lemma located_not_empty repr city w lat lon data :
  located repr city w lat lon ->
  answers w (geocode_request city w) data -> truthy data = false -> False.
Proof.
  intros (d & A & T & C) A' T'.
  assert (d = data) by exact (answers_unique _ _ _ _ A A'). subst. congruence.
Qed.

Lemma located_not_unreadable repr city w lat lon data e :
  located repr city w lat lon ->
  answers w (geocode_request city w) data -> coordinates repr data = Raise e -> False.
Proof.
  intros (d & A & T & C) A' C'.
  assert (d = data) by exact (answers_unique _ _ _ _ A A'). subst. congruence.
Qed.

Lemma time_raises_unique repr city w e1 e2 :
  time_raises repr city w e1 -> time_raises repr city w e2 -> e1 = e2.
Proof.
  intros [F1 | d1 A1 T1 C1 | la1 lo1 L1 F1 | la1 lo1 z1 L1 A1 R1]
         [F2 | d2 A2 T2 C2 | la2 lo2 L2 F2 | la2 lo2 z2 L2 A2 R2];
    try (exfalso; eapply located_not_failed; eassumption);
    try (exfalso; eapply located_not_unreadable; eassumption).
  - exact (fails_with_unique _ _ _ _ F1 F2).
  - destruct (fails_or_answers _ _ _ _ F1 A2).
  - destruct (fails_or_answers _ _ _ _ F2 A1).
  - assert (d1 = d2) by exact (answers_unique _ _ _ _ A1 A2). subst. congruence.
  - destruct (located_unique _ _ _ _ _ _ _ L1 L2) as [-> ->].
    exact (fails_with_unique _ _ _ _ F1 F2).
  - destruct (located_unique _ _ _ _ _ _ _ L1 L2) as [-> ->].
    destruct (fails_or_answers _ _ _ _ F1 A2).
  - destruct (located_unique _ _ _ _ _ _ _ L1 L2) as [-> ->].
    destruct (fails_or_answers _ _ _ _ F2 A1).
  - destruct (located_unique _ _ _ _ _ _ _ L1 L2) as [-> ->].
    assert (z1 = z2) by exact (answers_unique _ _ _ _ A1 A2). subst. congruence.
Qed.

Lemma time_answer_refuses repr city timezone_data status message e :
  getitem_str repr timezone_data "status" = Ok status ->
  ne_str status "OK" = true ->
  dict_get timezone_data "message" (PStr "Unknown error") = Ok message ->
  time_answer repr city timezone_data = Raise e -> False.
Proof.
  intros Hs Hn Hm. unfold time_answer. rewrite Hs. cbn [rbind]. rewrite Hn, Hm.
  discriminate.
Qed.

Lemma raises_not_empty repr city w e data :
  time_raises repr city w e ->
  answers w (geocode_request city w) data -> truthy data = false -> False.
Proof.
  intros [F | d A T C | la lo L F | la lo z L A R] A' T'.
  - exact (fails_or_answers _ _ _ _ F A').
  - assert (d = data) by exact (answers_unique _ _ _ _ A A'). subst. congruence.
  - exact (located_not_empty _ _ _ _ _ _ L A' T').
  - exact (located_not_empty _ _ _ _ _ _ L A' T').
Qed.

Lemma raises_not_refused repr city w e lat lon timezone_data status message :
  time_raises repr city w e ->
  located repr city w lat lon ->
  answers w (timezone_request w lat lon) timezone_data ->
  getitem_str repr timezone_data "status" = Ok status ->
  ne_str status "OK" = true ->
  dict_get timezone_data "message" (PStr "Unknown error") = Ok message ->
  False.
Proof.
  intros [F | d A T C | la lo L F | la lo z L A R] L' A' Hs Hn Hm.
  - exact (located_not_failed _ _ _ _ _ _ L' F).
  - exact (located_not_unreadable _ _ _ _ _ _ _ L' A C).
  - destruct (located_unique _ _ _ _ _ _ _ L L') as [-> ->].
    exact (fails_or_answers _ _ _ _ F A').
  - destruct (located_unique _ _ _ _ _ _ _ L L') as [-> ->].
    assert (z = timezone_data) by exact (answers_unique _ _ _ _ A A'). subst.
    exact (time_answer_refuses _ _ _ _ _ _ Hs Hn Hm R).
Qed.

(** In one world a call has one root cause at most: two messages that
    state the root cause of the same call are the same message. *)
Lemma root_cause_unique repr t city w m1 m2 :
  root_cause repr t city w m1 -> root_cause repr t city w m2 -> m1 = m2.
Proof.
  intros H1 H2. destruct H1; inversion H2; subst; try reflexivity; try congruence;
    repeat match goal with
           | A : weather_raises _ _ _ ?a, B : weather_raises _ _ _ ?b |- _ =>
               assert (a = b) by exact (weather_raises_unique _ _ _ _ _ A B);
               subst; clear B
           | A : time_raises _ _ _ ?a, B : time_raises _ _ _ ?b |- _ =>
               assert (a = b) by exact (time_raises_unique _ _ _ _ _ A B);
               subst; clear B
           end;
    try reflexivity;
    try (exfalso;
         match goal with
         | Hc : is_RequestException ?c = true, Hk : ?c = KeyError \/ ?c = IndexError |- _ =>
             destruct Hk as [Hk|Hk]; rewrite Hk in Hc; discriminate
         end);
    try (exfalso; eapply raises_not_empty; eassumption);
    try (exfalso; eapply raises_not_refused; eassumption);
    try (exfalso; eapply located_not_empty; eassumption).
  match goal with
  | L1 : located _ _ _ ?a ?b, L2 : located _ _ _ ?c ?d |- _ =>
      destruct (located_unique _ _ _ _ _ _ _ L1 L2) as [-> ->]
  end.
  match goal with
  | A1 : answers _ (timezone_request _ _ _) ?x,
    A2 : answers _ (timezone_request _ _ _) ?y |- _ =>
      assert (x = y) by exact (answers_unique _ _ _ _ A1 A2); subst
  end.
  congruence.
Qed.

(** C4, amended. Every envelope with status error that [get_weather] or
    [get_current_time] returns carries an error message that states the
    root cause of the failure in the world of the call, and no other: the
    API key that is missing, the stage that failed (fetching or parsing,
    by the class of the exception that the [try] block raised) with the
    city and the text of that exception, the location that geocoding did
    not find, or the refusal of the timezone service with its message. *)
Theorem error_message_states_root_cause repr t city w d log :
  call repr t city w = (Ok d, log) ->
  d !! "status" = Some "error" ->
  exists msg,
    d !! "error_message" = Some msg
    /\ root_cause repr t city w msg
    /\ forall other, root_cause repr t city w other -> other = msg.
Proof.
  intros H Hs.
  assert (exists msg, d !! "error_message" = Some msg /\ root_cause repr t city w msg)
    as (msg & Hm & Hc).
  { unfold call in H. destruct t; simpl in H.
    - destruct (get_weather_explains repr city w []) as (sent & _ & HQ).
      rewrite H in HQ. exact (HQ d eq_refl Hs).
    - destruct (get_current_time_explains repr city w []) as (sent & _ & HQ).
      rewrite H in HQ. exact (HQ d eq_refl Hs). }
  exists msg. split; [exact Hm|]. split; [exact Hc|].
  intros other Ho. exact (root_cause_unique repr t city w other msg Ho Hc).
Qed.

(** C4 amended, for an answer with status 401: the message states the
    exception that [raise_for_status] raised. *)
Lemma error_message_states_root_cause_witness :
  exists msg,
    ({[ "status" := "error";
        "error_message" :=
          "Error fetching weather for 'Paris': 401 Client Error: Unauthorized" ]}
       : envelope) !! "error_message" = Some msg
    /\ root_cause sample_repr GetWeather "Paris" unauthorized msg
    /\ forall other, root_cause sample_repr GetWeather "Paris" unauthorized other ->
                     other = msg.
Proof.
  apply (error_message_states_root_cause sample_repr GetWeather "Paris" unauthorized _
           [weather_request "Paris" unauthorized]).
  - vm_compute. reflexivity.
  - reflexivity.
Defined.

End ReportFacts.
